(** * MEPS v2 utilization service and MLflow registry manager

    A shallow embedding of [python-models/server/server.py] and
    [python-models/models/model_registry.py], with the properties of
    the prediction path, the lazy pipeline cache and the registry
    manager stated and proved over it.

    Conventions of the embedding:
    - a Python [float] is an IEEE value of [SpecFloat.spec_float];
    - a Python [dict] is an insertion-ordered association list with
      unique keys ([pydict]);
    - code that may raise returns an [outcome];
    - the module global [_MODELS] and the [print] output are threaded
      explicitly. *)

From Stdlib Require Import ZArith QArith Qabs SpecFloat Permutation Lia Lqa.
From stdpp Require Import base strings list gmap.

Local Open Scope string_scope.
Local Open Scope list_scope.
Local Open Scope Z_scope.

(** ** Exceptions and outcomes *)

Inductive exn_class : Type :=
  | RuntimeError
  | ValueError
  | OverflowError
  | AttributeError
  | IndexError
  | MlflowException
  | OtherException (name : string).

(** An exception object: its class and the text [str(e)] gives. *)
Record pyexn : Type := mk_exn { exn_cls : exn_class; exn_str : string }.

Inductive outcome (A : Type) : Type :=
  | Return (a : A)
  | Raise (e : pyexn).

Arguments Return {A} a.
Arguments Raise {A} e.

#[global] Instance outcome_ret : MRet outcome := fun A a => Return a.

#[global] Instance outcome_bind : MBind outcome := fun A B k o =>
  match o with
  | Return a => k a
  | Raise e => Raise e
  end.

Definition is_return {A : Type} (o : outcome A) : bool :=
  match o with Return _ => true | Raise _ => false end.

#[global] Instance exn_class_eq_dec : EqDecision exn_class.
Proof. solve_decision. Defined.

(** ** Python dictionaries *)

Definition pydict (V : Type) : Type := list (string * V).

Fixpoint dict_get {V : Type} (k : string) (d : pydict V) : option V :=
  match d with
  | [] => None
  | (k', v) :: d' => if decide (k' = k) then Some v else dict_get k d'
  end.

(** [d[k] = v]: an existing key keeps its position, a new key goes last. *)
Fixpoint dict_set {V : Type} (k : string) (v : V) (d : pydict V) : pydict V :=
  match d with
  | [] => [(k, v)]
  | (k', v') :: d' =>
      if decide (k' = k) then (k, v) :: d' else (k', v') :: dict_set k v d'
  end.

Definition dict_keys {V : Type} (d : pydict V) : list string := map fst d.

(** [dict(pairs)], as [json.loads] builds an object: later pairs win. *)
Definition dict_of_pairs {V : Type} (ps : list (string * V)) : pydict V :=
  fold_left (fun d kv => dict_set (fst kv) (snd kv) d) ps [].

(** ** Floats *)

Abbreviation float := spec_float.

Definition nan : float := S754_nan.

(** [x < 0] on floats: false on NaN and on both zeros. *)
Definition float_lt0 (x : float) : bool := SFltb x (S754_zero false).

(** Nearest integer to [n / d] for [d > 0], ties to the even one. *)
Definition round_half_even (n d : Z) : Z :=
  let q := n / d in
  let r := n mod d in
  match 2 * r ?= d with
  | Lt => q
  | Gt => q + 1
  | Eq => if Z.even q then q else q + 1
  end.

Definition signed (s : bool) (m : positive) : Z :=
  if s then Z.neg m else Z.pos m.

(** The builtin [round(x)] on a float: an int, or an exception on NaN
    and the infinities. *)
Definition py_round (x : float) : outcome Z :=
  match x with
  | S754_zero _ => Return 0
  | S754_nan =>
      Raise (mk_exn ValueError "cannot convert float NaN to integer")
  | S754_infinity _ =>
      Raise (mk_exn OverflowError "cannot convert float infinity to integer")
  | S754_finite s m e =>
      if 0 <=? e then Return (signed s m * 2 ^ e)
      else Return (round_half_even (signed s m) (2 ^ (- e)))
  end.

(** The exact rational value of a finite float. *)
Definition float_value (x : float) : option Q :=
  match x with
  | S754_zero _ => Some (0 # 1)%Q
  | S754_finite s m e =>
      if 0 <=? e then Some (inject_Z (signed s m * 2 ^ e))
      else Some (Qmake (signed s m) (Z.to_pos (2 ^ (- e))))
  | _ => None
  end.

(** [r] is an integer nearest to [q], and the even one of the two
    when [q] lies halfway between two integers. *)
Definition nearest_int_ties_even (r : Z) (q : Q) : Prop :=
  (Qabs (inject_Z r - q) <= 1 # 2)%Q ∧
  ((Qabs (inject_Z r - q) == 1 # 2)%Q → Z.even r = true).

(** ** The served schema *)

Definition COUNT_TARGETS : list string :=
  [ "pcp_visits";
    "outpatient_visits";
    "er_visits";
    "inpatient_admits";
    "home_health_visits";
    "rx_fills";
    "dental_visits";
    "equipment_purchases" ].

Definition FEATURE_COLS : list string :=
  [ "age_years_2022";
    "gender";
    "race_ethnicity";
    "hispanic_origin_category";
    "census_region";
    "education_years";
    "highest_degree_achieved";
    "family_income_2022";
    "poverty_level_pct";
    "poverty_category";
    "employment_status";
    "hours_worked_per_week";
    "occupation_industry_category";
    "family_size";
    "marital_status";
    "spouse_in_household";
    "insurance_coverage_type";
    "has_usual_source_of_care";
    "usual_care_location_type";
    "delayed_care_due_to_cost";
    "delayed_prescription_due_to_cost";
    "received_snap";
    "snap_benefit_value_2022";
    "bmi";
    "smoking_frequency";
    "alcohol_consumption_frequency";
    "exercise_days_per_week";
    "english_proficiency";
    "us_born_flag";
    "years_in_us";
    "difficulty_lifting_carrying";
    "difficulty_walking_stairs";
    "any_activity_limitation";
    "cognitive_limitation";
    "k6_distress_score";
    "hopelessness_frequency_30d";
    "sadness_frequency_30d" ].

(** The fields declared by [class Features(BaseModel)], in order; each
    is [Optional[float] = None]. *)
Definition Features_fields : list string :=
  [ "age_years_2022";
    "gender";
    "race_ethnicity";
    "hispanic_origin_category";
    "census_region";
    "education_years";
    "highest_degree_achieved";
    "family_income_2022";
    "poverty_level_pct";
    "poverty_category";
    "employment_status";
    "hours_worked_per_week";
    "occupation_industry_category";
    "family_size";
    "marital_status";
    "spouse_in_household";
    "insurance_coverage_type";
    "has_usual_source_of_care";
    "usual_care_location_type";
    "delayed_care_due_to_cost";
    "delayed_prescription_due_to_cost";
    "received_snap";
    "snap_benefit_value_2022";
    "bmi";
    "smoking_frequency";
    "alcohol_consumption_frequency";
    "exercise_days_per_week";
    "english_proficiency";
    "us_born_flag";
    "years_in_us";
    "difficulty_lifting_carrying";
    "difficulty_walking_stairs";
    "any_activity_limitation";
    "cognitive_limitation";
    "k6_distress_score";
    "hopelessness_frequency_30d";
    "sadness_frequency_30d" ].

(** ** Data frames, pipelines and the request object *)

(** A frame stored row by row; every row has one cell per column. *)
Record DataFrame (A : Type) : Type := mk_df {
  df_columns : list string;
  df_index : list Z;
  df_rows : list (list A)
}.

Arguments mk_df {A} _ _ _.
Arguments df_columns {A} _.
Arguments df_index {A} _.
Arguments df_rows {A} _.

Fixpoint index_of (c : string) (cols : list string) : option nat :=
  match cols with
  | [] => None
  | c' :: rest => if decide (c' = c) then Some O else S <$> index_of c rest
  end.

(** [X.at[r, c]]: the cell of row [r] under the column named [c]. *)
Definition df_at {A : Type} (X : DataFrame A) (r : nat) (c : string)
    : option A :=
  i ← index_of c (df_columns X);
  row ← df_rows X !! r;
  row !! i.

(** A cell of the request frame: a number, or [None] for a missing
    value (Python's [None], which pandas treats as NA). *)
Definition cell : Type := option float.

(** [pd.DataFrame(records, columns=columns)]: the columns are exactly
    [columns], in that order; a key a record lacks gives a missing cell. *)
Definition DataFrame_of_records (records : list (pydict cell))
    (columns : list string) : DataFrame cell :=
  {| df_columns := columns;
     df_index := map Z.of_nat (seq 0 (length records));
     df_rows :=
       map (fun r => map (fun c => default None (dict_get c r)) columns)
           records |}.

(** A saved pipeline is opaque: its [predict] maps a frame to an array
    of raw outputs, or raises. *)
Record Pipeline : Type := mk_pipeline {
  pipe_predict : DataFrame cell -> outcome (list float)
}.

(** [a[0]] on a one-dimensional array. *)
Definition getitem0 {A : Type} (a : list A) : outcome A :=
  match a with
  | x :: _ => Return x
  | [] =>
      Raise (mk_exn IndexError
               "index 0 is out of bounds for axis 0 with size 0")
  end.

(** A [Features] instance, as its attribute dictionary. *)
Definition Features : Type := pydict cell.

(** Validation of a request body (a JSON object whose values are
    numbers or null) into a [Features] instance: every declared field
    is set, to the body's value or to the default [None]; keys that are
    not fields are ignored. *)
Definition Features_validate (body : list (string * cell)) : Features :=
  let d := dict_of_pairs body in
  map (fun f => (f, default None (dict_get f d))) Features_fields.

Definition getattr (o : Features) (name : string) : outcome cell :=
  match dict_get name o with
  | Some v => Return v
  | None =>
      Raise (mk_exn AttributeError
               ("'Features' object has no attribute '" +:+ name +:+ "'"))
  end.

(** ** The file system and the pipeline cache *)

Record world : Type := mk_world {
  repo_root : string;
  path_exists : string -> bool;
  joblib_load : string -> outcome Pipeline
}.

Definition path_join (p q : string) : string := p +:+ "/" +:+ q.

Definition models_dir_of (w : world) : string :=
  path_join (path_join (path_join (repo_root w) "python-models") "models")
            "v2-pkl".

Definition model_path_of (models_dir target : string) : string :=
  path_join models_dir ("model_" +:+ target +:+ ".pkl").

(** The module state: the global [_MODELS], and a log of the paths
    handed to [joblib.load] so far (ghost state, never read by the
    code). *)
Record state : Type := mk_state {
  _MODELS : option (pydict Pipeline);
  loads : list string
}.

Definition cold : state := {| _MODELS := None; loads := [] |}.

(** The loop of [_load_models] over the remaining targets. *)
Fixpoint load_targets (w : world) (models_dir : string)
    (targets : list string) (registry : pydict Pipeline) (log : list string)
    : outcome (pydict Pipeline) * list string :=
  match targets with
  | [] => (Return registry, log)
  | target :: rest =>
      let model_path := model_path_of models_dir target in
      if path_exists w model_path then
        match joblib_load w model_path with
        | Return pipe =>
            load_targets w models_dir rest (dict_set target pipe registry)
                         (log ++ [model_path])
        | Raise e => (Raise e, log ++ [model_path])
        end
      else
        (Raise (mk_exn RuntimeError ("Missing model file: " +:+ model_path)),
         log)
  end.

Definition _load_models (w : world) (st : state)
    : outcome (pydict Pipeline) * state :=
  match _MODELS st with
  | Some models => (Return models, st)
  | None =>
      let models_dir := models_dir_of w in
      if path_exists w models_dir then
        match load_targets w models_dir COUNT_TARGETS [] (loads st) with
        | (Return registry, log) =>
            (Return registry, {| _MODELS := Some registry; loads := log |})
        | (Raise e, log) => (Raise e, {| _MODELS := None; loads := log |})
        end
      else
        (Raise (mk_exn RuntimeError
                  ("Models directory not found: " +:+ models_dir)),
         st)
  end.

(** ** The endpoints *)

(** What a handler gives back: its return value, or the
    [HTTPException] it raises. *)
Inductive response (A : Type) : Type :=
  | Ok (body : A)
  | HTTPException (status_code : Z) (detail : string).

Arguments Ok {A} body.
Arguments HTTPException {A} status_code detail.

Definition health (w : world) (st : state)
    : response (pydict string) * state :=
  match _load_models w st with
  | (Return _, st') => (Ok [("status", "ok")], st')
  | (Raise e, st') => (HTTPException 500 (exn_str e), st')
  end.

(** [{col: getattr(features, col) for col in FEATURE_COLS}] *)
Fixpoint build_row (features : Features) (cols : list string)
    (row : pydict cell) : outcome (pydict cell) :=
  match cols with
  | [] => Return row
  | col :: rest =>
      v ← getattr features col;
      build_row features rest (dict_set col v row)
  end.

(** [max(0, int(round(pred_value)))] *)
Definition coerce (pred_value : float) : outcome Z :=
  r ← py_round pred_value;
  mret (Z.max 0 r).

(** The loop of [predict] over [models.items()]. *)
Fixpoint predict_targets (items : list (string * Pipeline))
    (X : DataFrame cell) (outputs : pydict Z) : outcome (pydict Z) :=
  match items with
  | [] => Return outputs
  | (target, pipe) :: rest =>
      a ← pipe_predict pipe X;
      pred_value ← getitem0 a;
      v ← coerce pred_value;
      predict_targets rest X (dict_set target v outputs)
  end.

Definition feature_frame (features : Features) : outcome (DataFrame cell) :=
  row ← build_row features FEATURE_COLS [];
  mret (DataFrame_of_records [row] FEATURE_COLS).

Definition predict (w : world) (st : state) (features : Features)
    : response (pydict Z) * state :=
  match _load_models w st with
  | (Raise e, st') => (HTTPException 500 (exn_str e), st')
  | (Return models, st') =>
      match X ← feature_frame features; predict_targets models X [] with
      | Return outputs => (Ok outputs, st')
      | Raise e => (HTTPException 500 (exn_str e), st')
      end
  end.

(** A run of the service: requests handled one after the other, each
    on the state the previous one left. *)
Inductive request : Type :=
  | GetHealth
  | PostPredict (features : Features).

Inductive reply : Type :=
  | HealthReply (r : response (pydict string))
  | PredictReply (r : response (pydict Z)).

Definition handle (w : world) (st : state) (req : request) : reply * state :=
  match req with
  | GetHealth => let '(r, st') := health w st in (HealthReply r, st')
  | PostPredict features =>
      let '(r, st') := predict w st features in (PredictReply r, st')
  end.

Fixpoint serve (w : world) (st : state) (reqs : list request)
    : list reply * state :=
  match reqs with
  | [] => ([], st)
  | req :: rest =>
      let '(r, st') := handle w st req in
      let '(rs, st'') := serve w st' rest in
      (r :: rs, st'')
  end.

Definition is_error (r : reply) : bool :=
  match r with
  | HealthReply (HTTPException _ _) | PredictReply (HTTPException _ _) => true
  | _ => false
  end.

(** Every artifact of the deployment is present and deserializes. *)
Definition deployable (w : world) : Prop :=
  path_exists w (models_dir_of w) = true ∧
  ∀ t, t ∈ COUNT_TARGETS →
       path_exists w (model_path_of (models_dir_of w) t) = true ∧
       is_return (joblib_load w (model_path_of (models_dir_of w) t)) = true.

(** ** The legacy preprocessing helper

    [neg_to_nan] works on objects that live on the heap: an ndarray is
    its shape and its flat buffer, a Series its index and its values,
    a DataFrame a frame of floats.  A Python scalar is passed by
    value. *)

Inductive heapobj : Type :=
  | ONDArray (shape : list nat) (data : list float)
  | OSeries (index : list Z) (values : list float)
  | ODataFrame (frame : DataFrame float).

Abbreviation loc := nat (only parsing).

Inductive pyval : Type :=
  | VScalar (x : float)
  | VRef (l : loc).

Definition alloc (h : gmap nat heapobj) (o : heapobj)
    : loc * gmap nat heapobj :=
  let l := fresh (dom h) in (l, <[l := o]> h).

(** [np.asarray(X, dtype=float)]: a float ndarray is returned as it is
    (no copy); a scalar becomes a new array of shape [()]. *)
Definition np_asarray (h : gmap nat heapobj) (X : pyval)
    : option (loc * gmap nat heapobj) :=
  match X with
  | VScalar x => Some (alloc h (ONDArray [] [x]))
  | VRef l =>
      match h !! l with
      | Some (ONDArray _ _) => Some (l, h)
      | _ => None
      end
  end.

(** [arr.copy()] *)
Definition ndarray_copy (h : gmap nat heapobj) (arr : loc)
    : option (loc * gmap nat heapobj) :=
  match h !! arr with
  | Some (ONDArray shape data) => Some (alloc h (ONDArray shape data))
  | _ => None
  end.

(** [arr[arr < 0] = np.nan], in place. *)
Definition ndarray_setitem_lt0_nan (h : gmap nat heapobj) (arr : loc)
    : option (gmap nat heapobj) :=
  match h !! arr with
  | Some (ONDArray shape data) =>
      let cond := map float_lt0 data in
      let data' :=
        zip_with (fun (c : bool) x => if c then nan else x) cond data in
      Some (<[arr := ONDArray shape data']> h)
  | _ => None
  end.

(** [X.mask(X < 0)]: a new object, NaN where the condition holds. *)
Definition mask_lt0 (xs : list float) : list float :=
  zip_with (fun (c : bool) x => if c then nan else x) (map float_lt0 xs) xs.

Definition pandas_mask_lt0 (o : heapobj) : option heapobj :=
  match o with
  | OSeries index values => Some (OSeries index (mask_lt0 values))
  | ODataFrame f =>
      Some (ODataFrame
              {| df_columns := df_columns f;
                 df_index := df_index f;
                 df_rows := map mask_lt0 (df_rows f) |})
  | ONDArray _ _ => None
  end.

Definition is_pandas (h : gmap nat heapobj) (X : pyval) : option heapobj :=
  match X with
  | VRef l =>
      match h !! l with
      | Some (OSeries i v) => Some (OSeries i v)
      | Some (ODataFrame f) => Some (ODataFrame f)
      | _ => None
      end
  | VScalar _ => None
  end.

(** The result is a reference into the new heap; [None] only for a
    dangling reference, which no Python program can hold. *)
Definition neg_to_nan (h : gmap nat heapobj) (X : pyval)
    : option (loc * gmap nat heapobj) :=
  match is_pandas h X with
  | Some o => o' ← pandas_mask_lt0 o; Some (alloc h o')
  | None =>
      '(arr, h1) ← np_asarray h X;
      '(arr, h2) ← ndarray_copy h1 arr;
      h3 ← ndarray_setitem_lt0_nan h2 arr;
      Some (arr, h3)
  end.

(** The entries of an object, in storage order, and what is left of it
    once the entries are taken away (its kind, shape and labels). *)
Definition entries (o : heapobj) : list float :=
  match o with
  | ONDArray _ data => data
  | OSeries _ values => values
  | ODataFrame f => concat (df_rows f)
  end.

Inductive layout : Type :=
  | LArray (shape : list nat)
  | LSeries (index : list Z)
  | LFrame (columns : list string) (index : list Z) (widths : list nat).

Definition layout_of (o : heapobj) : layout :=
  match o with
  | ONDArray shape _ => LArray shape
  | OSeries index _ => LSeries index
  | ODataFrame f =>
      LFrame (df_columns f) (df_index f) (map length (df_rows f))
  end.

(** What [neg_to_nan] does to one entry. *)
Definition masked (x y : float) : Prop :=
  if float_lt0 x then y = nan else y = x.

(** The value and the layout a call argument denotes: a scalar is read
    as the array of shape [()] holding it. *)
Definition denote (h : gmap nat heapobj) (X : pyval) : option heapobj :=
  match X with
  | VScalar x => Some (ONDArray [] [x])
  | VRef l => h !! l
  end.

(** ** Concurrent callers of [_load_models]

    A caller inside [_load_models] is at one of its statements, with
    its local [registry]; one step runs one statement (one loop
    iteration) against the shared module state.  The handlers run on
    worker threads, so the steps of different callers interleave. *)

Inductive caller : Type :=
  | AtTest
  | AtDirCheck
  | AtLoop (registry : pydict Pipeline) (todo : list string)
  | AtAssign (registry : pydict Pipeline)
  | Finished (r : outcome (pydict Pipeline)).

Definition caller_step (w : world) (st : state) (c : caller)
    : state * caller :=
  match c with
  | AtTest =>
      match _MODELS st with
      | Some models => (st, Finished (Return models))
      | None => (st, AtDirCheck)
      end
  | AtDirCheck =>
      if path_exists w (models_dir_of w) then (st, AtLoop [] COUNT_TARGETS)
      else
        (st,
         Finished
           (Raise (mk_exn RuntimeError
                     ("Models directory not found: " +:+ models_dir_of w))))
  | AtLoop registry [] => (st, AtAssign registry)
  | AtLoop registry (target :: rest) =>
      let model_path := model_path_of (models_dir_of w) target in
      if path_exists w model_path then
        let st' := {| _MODELS := _MODELS st;
                      loads := loads st ++ [model_path] |} in
        match joblib_load w model_path with
        | Return pipe => (st', AtLoop (dict_set target pipe registry) rest)
        | Raise e => (st', Finished (Raise e))
        end
      else
        (st,
         Finished
           (Raise (mk_exn RuntimeError
                     ("Missing model file: " +:+ model_path))))
  | AtAssign registry =>
      ({| _MODELS := Some registry; loads := loads st |},
       Finished (Return registry))
  | Finished r => (st, Finished r)
  end.

Record system : Type := mk_system {
  shared : state;
  callers : list caller
}.

(** The scheduler lets caller [i] run one step. *)
Definition system_step (w : world) (s : system) (i : nat) : system :=
  match callers s !! i with
  | Some c =>
      let '(st', c') := caller_step w (shared s) c in
      {| shared := st'; callers := <[i := c']> (callers s) |}
  | None => s
  end.

Definition run_schedule (w : world) (sched : list nat) (s : system)
    : system :=
  fold_left (system_step w) sched s.

(** [n] requests arrive at a cold service. *)
Definition arrivals (n : nat) : system :=
  {| shared := cold; callers := replicate n AtTest |}.

Definition all_finished (s : system) : bool :=
  forallb (fun c => match c with Finished _ => true | _ => false end)
          (callers s).

(** One caller alone, run for [n] steps. *)
Fixpoint caller_run (w : world) (n : nat) (st : state) (c : caller)
    : state * caller :=
  match n with
  | O => (st, c)
  | S n' =>
      let '(st', c') := caller_step w st c in caller_run w n' st' c'
  end.

(** A pipeline set is complete when it holds exactly the known
    targets. *)
Definition complete (registry : pydict Pipeline) : Prop :=
  dict_keys registry = COUNT_TARGETS.

(** What holds of a caller and of the cache at every moment: a
    registry that is visible outside the loop is complete, and inside
    the loop it holds the targets already passed. *)
Definition caller_ok (c : caller) : Prop :=
  match c with
  | AtTest | AtDirCheck => True
  | AtLoop registry todo => dict_keys registry ++ todo = COUNT_TARGETS
  | AtAssign registry => complete registry
  | Finished (Return registry) => complete registry
  | Finished (Raise _) => True
  end.

Definition cache_ok (st : state) : Prop :=
  match _MODELS st with
  | Some registry => complete registry
  | None => True
  end.

(** In a deployment where every artifact loads, no caller fails, and
    a caller that has returned has left the cache set. *)
Definition caller_loaded (st : state) (c : caller) : Prop :=
  match c with
  | Finished (Return _) => is_Some (_MODELS st)
  | Finished (Raise _) => False
  | AtLoop _ todo => todo ⊆ COUNT_TARGETS
  | _ => True
  end.

(** The three facts kept by every step of every caller. *)
Definition system_ok (w : world) (s : system) : Prop :=
  cache_ok (shared s) ∧
  Forall caller_ok (callers s) ∧
  (deployable w → Forall (caller_loaded (shared s)) (callers s)).

(** How many [joblib.load] calls a caller may still make. *)
Definition budget (c : caller) : nat :=
  match c with
  | AtTest | AtDirCheck => length COUNT_TARGETS
  | AtLoop _ todo => length todo
  | AtAssign _ | Finished _ => 0
  end.

Fixpoint total_budget (cs : list caller) : nat :=
  match cs with
  | [] => 0
  | c :: rest => budget c + total_budget rest
  end.

(** The schedule in which each of [n] callers first tests the cache,
    and then each in turn runs [_load_models] to its end. *)
Definition racing (n : nat) : list nat :=
  seq 0 n ++ concat (map (replicate (length COUNT_TARGETS + 3)) (seq 0 n)).

(** ** The registry manager *)

Record ModelVersion : Type := mk_version {
  name : string;
  version : string;
  current_stage : string;
  run_id : string
}.

(** What the tracking store answers to the four calls the manager
    makes.  An unreachable store, an unknown run or a rejected stage
    shows as a raised [MlflowException]. *)
Record MlflowStore (Model : Type) : Type := mk_store {
  mlflow_register_model : string -> string -> outcome ModelVersion;
  transition_model_version_stage : string -> Z -> string -> outcome unit;
  search_model_versions : string -> outcome (list ModelVersion);
  sklearn_load_model : string -> outcome Model
}.

Arguments mk_store {Model} _ _ _ _.
Arguments mlflow_register_model {Model} _ _ _.
Arguments transition_model_version_stage {Model} _ _ _ _.
Arguments search_model_versions {Model} _ _.
Arguments sklearn_load_model {Model} _ _.

(** What a method does besides returning: lines printed and calls made
    to the store, in order. *)
Inductive event : Type :=
  | Printed (line : string)
  | CallRegister (model_uri model : string)
  | CallTransition (model : string) (ver : Z) (stage : string)
  | CallSearch (filter_string : string)
  | CallLoad (model_uri : string).

Record ModelRegistryManager : Type := mk_manager { model_name : string }.

Definition effectful (A : Type) : Type := outcome A * list event.

(** [try: body  except MlflowException as e: handler e] *)
Definition except_MlflowException {A : Type} (body : effectful A)
    (handler : pyexn -> effectful A) : effectful A :=
  match body with
  | (Return a, evs) => (Return a, evs)
  | (Raise e, evs) =>
      if decide (exn_cls e = MlflowException) then
        let '(r, evs') := handler e in (r, evs ++ evs')
      else (Raise e, evs)
  end.

Section Registry.
Context {Model : Type}.
Variable store : MlflowStore Model.
Variable self : ModelRegistryManager.

(** A Python method returning [None] or an object gives an option. *)
Definition register_model (run : string)
    : effectful (option ModelVersion) :=
  except_MlflowException
    (let uri := "runs:/" +:+ run +:+ "/model" in
     match mlflow_register_model store uri (model_name self) with
     | Return result =>
         (Return (Some result),
          [CallRegister uri (model_name self);
           Printed ("Registering model with name: " +:+ model_name self
                    +:+ " and run ID: " +:+ run)])
     | Raise e => (Raise e, [CallRegister uri (model_name self)])
     end)
    (fun e =>
       (Return None, [Printed ("Error registering model: " +:+ exn_str e)])).

Definition transition_model_stage (ver : Z) (stage : string)
    : effectful unit :=
  except_MlflowException
    (match transition_model_version_stage store (model_name self) ver stage
     with
     | Return _ =>
         (Return tt,
          [CallTransition (model_name self) ver stage;
           Printed ("Transitioning model '" +:+ model_name self
                    +:+ "' to stage: " +:+ stage)])
     | Raise e => (Raise e, [CallTransition (model_name self) ver stage])
     end)
    (fun e =>
       (Return tt,
        [Printed ("Error transitioning model to stage '" +:+ stage
                  +:+ "': " +:+ exn_str e)])).

(** The [for] loop of [fetch_latest_model]. *)
Fixpoint scan_versions (stage : string) (model_versions : list ModelVersion)
    : effectful (option Model) :=
  match model_versions with
  | [] => (Return None, [Printed ("No model found at stage: " +:+ stage)])
  | v :: rest =>
      if decide (current_stage v = stage) then
        let uri := "models:/" +:+ model_name self +:+ "/" +:+ version v in
        let evs := [Printed ("Fetching latest model at stage: " +:+ stage);
                    CallLoad uri] in
        match sklearn_load_model store uri with
        | Return m => (Return (Some m), evs)
        | Raise e => (Raise e, evs)
        end
      else scan_versions stage rest
  end.

Definition fetch_latest_model (stage : string) : effectful (option Model) :=
  except_MlflowException
    (let filter_string := "name='" +:+ model_name self +:+ "'" in
     match search_model_versions store filter_string with
     | Return model_versions =>
         let '(r, evs) := scan_versions stage model_versions in
         (r, CallSearch filter_string :: evs)
     | Raise e => (Raise e, [CallSearch filter_string])
     end)
    (fun e =>
       (Return None,
        [Printed ("Error fetching model at stage '" +:+ stage
                  +:+ "': " +:+ exn_str e)])).
End Registry.

(** ** Concrete inputs used to exercise the statements *)

Definition f45 : float := S754_finite false 45 0.
Definition f1 : float := S754_finite false 1 0.

(** [{"gender": 1, "age_years_2022": 45, "favourite_colour": 1, "bmi": null}] *)
Definition sample_body : list (string * cell) :=
  [("gender", Some f1); ("age_years_2022", Some f45);
   ("favourite_colour", Some f1); ("bmi", None)].

(** A pipeline that answers every frame with the one-row array [[y]],
    and a deployment where every artifact is present and loads. *)
Definition constant_pipeline (y : float) : Pipeline :=
  {| pipe_predict := fun _ => Return [y] |}.

(** -2.5, 2.5, 3.5 and 0.25 as binary fractions. *)
Definition f_minus_2_5 : float := S754_finite true 5 (-1).
Definition f_2_5 : float := S754_finite false 5 (-1).
Definition f_3_5 : float := S754_finite false 7 (-1).
Definition f_0_25 : float := S754_finite false 1 (-2).

Definition good_world : world :=
  {| repo_root := "/srv/app";
     path_exists := fun _ => true;
     joblib_load := fun p =>
       Return (constant_pipeline
                 (if decide (p = "/srv/app/python-models/models/v2-pkl/model_er_visits.pkl")
                  then f_minus_2_5 else f_3_5)) |}.

(** The pipeline set a cold service loads from [good_world]. *)
Definition good_models : pydict Pipeline :=
  Eval vm_compute in
    match fst (_load_models good_world cold) with
    | Return models => models
    | Raise _ => []
    end.

(** [good_world] with the artifact of [rx_fills] removed. *)
Definition rx_fills_path : string :=
  "/srv/app/python-models/models/v2-pkl/model_rx_fills.pkl".

Definition broken_world : world :=
  {| repo_root := "/srv/app";
     path_exists := fun p => bool_decide (p ≠ rx_fills_path);
     joblib_load := joblib_load good_world |}.

(** [good_world] where the pipeline of [dental_visits] raises. *)
Definition failing_pipeline : Pipeline :=
  {| pipe_predict := fun _ =>
       Raise (mk_exn ValueError "Input contains NaN") |}.

Definition flaky_world : world :=
  {| repo_root := "/srv/app";
     path_exists := fun _ => true;
     joblib_load := fun p =>
       if decide (p = "/srv/app/python-models/models/v2-pkl/model_dental_visits.pkl")
       then Return failing_pipeline
       else joblib_load good_world p |}.

Definition flaky_models : pydict Pipeline :=
  Eval vm_compute in
    match fst (_load_models flaky_world cold) with
    | Return models => models
    | Raise _ => []
    end.

(** A tracking store that is down, and one that is up and holds one
    version, in [Staging]; the trained model is stood for by the URI
    it was loaded from. *)
Definition connection_refused : pyexn :=
  mk_exn MlflowException
         "API request to http://127.0.0.1:5000 failed: connection refused".

Definition run_not_found : pyexn :=
  mk_exn MlflowException "Run 'r42' not found".

Definition down_store : MlflowStore string :=
  {| mlflow_register_model := fun _ _ => Raise connection_refused;
     transition_model_version_stage := fun _ _ _ => Raise connection_refused;
     search_model_versions := fun _ => Raise connection_refused;
     sklearn_load_model := fun _ => Raise connection_refused |}.

Definition staged_version : ModelVersion :=
  {| name := "meps"; version := "1"; current_stage := "Staging";
     run_id := "r1" |}.

Definition live_store : MlflowStore string :=
  {| mlflow_register_model := fun uri model =>
       if decide (uri = "runs:/r42/model") then Raise run_not_found
       else Return {| name := model; version := "2"; current_stage := "None";
                      run_id := uri |};
     transition_model_version_stage := fun _ _ stage =>
       if bool_decide (stage ∈ ["None"; "Staging"; "Production"; "Archived"])
       then Return tt
       else Raise (mk_exn MlflowException
                          ("Invalid Model Version stage: " +:+ stage));
     search_model_versions := fun _ => Return [staged_version];
     sklearn_load_model := fun uri => Return uri |}.

Definition meps : ModelRegistryManager := {| model_name := "meps" |}.

(** Heaps and arguments for [neg_to_nan]: an array, a series and a
    frame holding -1.0, NaN, 0.25 and -0.0. *)
Definition f_minus_1 : float := S754_finite true 1 0.
Definition f_minus_0 : float := S754_zero true.

Definition sample_heap : gmap nat heapobj :=
  <[0%nat := ONDArray [2%nat; 2%nat] [f_minus_1; nan; f_0_25; f_minus_0]]>
    (<[1%nat := OSeries [10; 20] [f_3_5; f_minus_2_5]]>
       (<[2%nat := ODataFrame
                     {| df_columns := ["bmi"; "age_years_2022"];
                        df_index := [0; 1];
                        df_rows := [[f_minus_1; f45]; [f_0_25; f_minus_1]] |}]>
          ∅)).


(** Two requests reach a cold service; both test [_MODELS] before
    either has loaded anything, then each runs to its end. *)
Definition racing_schedule : list nat :=
  [0; 1]%nat ++ replicate 11 0%nat ++ replicate 11 1%nat.

(** ** The [__mp_main__] shim

    [sys.modules] maps module names to module objects; a module object
    is taken as its namespace, and the only attribute values that
    matter here are strings, [None] and the helper function. *)





(** ** Notions used by the further properties *)

(** A caller, and the cache, agree with what a caller alone on a cold
    service gets from [_load_models]. *)
Definition caller_agrees (w : world) (c : caller) : Prop :=
  match c with
  | AtTest | AtDirCheck => True
  | AtLoop registry todo =>
      path_exists w (models_dir_of w) = true ∧
      (load_targets w (models_dir_of w) todo registry []).1
      = (load_targets w (models_dir_of w) COUNT_TARGETS [] []).1
  | AtAssign registry =>
      path_exists w (models_dir_of w) = true ∧
      (load_targets w (models_dir_of w) COUNT_TARGETS [] []).1
      = Return registry
  | Finished r => r = (_load_models w cold).1
  end.

Definition cache_agrees (w : world) (st : state) : Prop :=
  match _MODELS st with
  | Some models => (_load_models w cold).1 = Return models
  | None => True
  end.


(** The calls a method made to the store, printing left out. *)
Definition store_calls (evs : list event) : list event :=
  List.filter (fun ev => match ev with Printed _ => false | _ => true end) evs.


(** Every health check among the replies answered ok. *)
Definition health_replies_ok (rs : list reply) : Prop :=
  Forall (λ r, match r with
               | HealthReply r' => r' = Ok [("status", "ok")]
               | PredictReply _ => True
               end) rs.

(** A pipeline that answers NaN, one that answers an empty array, and
    pipeline sets holding them. *)
Definition nan_pipeline : Pipeline :=
  {| pipe_predict := fun _ => Return [nan] |}.

Definition empty_pipeline : Pipeline :=
  {| pipe_predict := fun _ => Return [] |}.

Definition loaded_with (models : pydict Pipeline) : state :=
  {| _MODELS := Some models; loads := [] |}.

(** The object [neg_to_nan] builds from the object it is given. *)
Definition mask_obj (o : heapobj) : heapobj :=
  match o with
  | ONDArray shape data => ONDArray shape (mask_lt0 data)
  | OSeries index values => OSeries index (mask_lt0 values)
  | ODataFrame f =>
      ODataFrame {| df_columns := df_columns f;
                    df_index := df_index f;
                    df_rows := map mask_lt0 (df_rows f) |}
  end.

Definition no_negative (o : heapobj) : Prop :=
  Forall (λ x, float_lt0 x = false) (entries o).

(** A heap with one array that has no entry below zero. *)
Definition clean_array : heapobj := ONDArray [3%nat] [nan; f_minus_0; f_3_5].

Definition clean_heap : gmap nat heapobj := <[0%nat := clean_array]> ∅.

(** Closed decidable goals are settled by evaluation. *)
Ltac by_compute := apply (bool_decide_unpack _); vm_compute; exact I.


(** 0.5 and 1.5 as binary fractions, and 3.0 with a fractional
    encoding. *)
Definition f_0_5 : float := S754_finite false 1 (-1).
Definition f_1_5 : float := S754_finite false 3 (-1).
Definition f_3_0 : float := S754_finite false 6 (-1).


(** A store that lists an archived version and then two versions in
    [Production]; one where loading version 3 fails; and one whose
    client raises an exception that is not an [MlflowException]. *)
Definition listed_versions : list ModelVersion :=
  [ {| name := "meps"; version := "1"; current_stage := "Archived";
       run_id := "r1" |};
    {| name := "meps"; version := "3"; current_stage := "Production";
       run_id := "r3" |};
    {| name := "meps"; version := "5"; current_stage := "Production";
       run_id := "r5" |} ].

Definition crowded_store : MlflowStore string :=
  {| mlflow_register_model := mlflow_register_model live_store;
     transition_model_version_stage :=
       transition_model_version_stage live_store;
     search_model_versions := fun _ => Return listed_versions;
     sklearn_load_model := fun uri => Return uri |}.

Definition artifact_gone : pyexn :=
  mk_exn MlflowException "No such artifact: models:/meps/3".

Definition lossy_store : MlflowStore string :=
  {| mlflow_register_model := mlflow_register_model live_store;
     transition_model_version_stage :=
       transition_model_version_stage live_store;
     search_model_versions := fun _ => Return listed_versions;
     sklearn_load_model := fun uri =>
       if decide (uri = "models:/meps/3") then Raise artifact_gone
       else Return uri |}.

Definition type_error : pyexn :=
  mk_exn (OtherException "TypeError") "expected str, got NoneType".

Definition buggy_store : MlflowStore string :=
  {| mlflow_register_model := fun _ _ => Raise type_error;
     transition_model_version_stage := fun _ _ _ => Raise type_error;
     search_model_versions := fun _ => Raise type_error;
     sklearn_load_model := fun _ => Raise type_error |}.

(** * Properties *)

(** ** Dictionaries *)

Section Dict.
Context {V : Type}.
Implicit Types (d : pydict V) (k : string) (v : V).

Lemma dict_get_set_eq k v d : dict_get k (dict_set k v d) = Some v.
Proof.
  induction d as [|[k' v'] d IH]; simpl.
  - by rewrite decide_True.
  - destruct (decide (k' = k)) as [->|Hne]; simpl.
    + by rewrite decide_True.
    + by rewrite decide_False.
Qed.

Lemma dict_get_set_ne k k' v d :
  k' ≠ k → dict_get k (dict_set k' v d) = dict_get k d.
Proof.
  intros Hne. induction d as [|[k0 v0] d IH]; simpl.
  - by rewrite decide_False.
  - destruct (decide (k0 = k')) as [->|Hne0]; simpl.
    + by rewrite !decide_False.
    + destruct (decide (k0 = k)); done.
Qed.

Lemma dict_get_None k d : dict_get k d = None ↔ k ∉ dict_keys d.
Proof.
  unfold dict_keys. induction d as [|[k' v'] d IH]; simpl.
  - split; [intros _; apply not_elem_of_nil | done].
  - rewrite not_elem_of_cons. destruct (decide (k' = k)) as [->|Hne].
    + split; [done | intros [? _]; done].
    + rewrite IH. split; [intros ?; split; [congruence | done] | tauto].
Qed.

Lemma dict_get_Some_elem k v d : dict_get k d = Some v → (k, v) ∈ d.
Proof.
  induction d as [|[k' v'] d IH]; simpl; [done|].
  destruct (decide (k' = k)) as [->|Hne].
  - intros [= ->]. left.
  - intros H. right. by apply IH.
Qed.

(** A fresh key goes to the end; the others keep their places. *)
Lemma dict_keys_set_fresh k v d :
  k ∉ dict_keys d → dict_keys (dict_set k v d) = dict_keys d ++ [k].
Proof.
  unfold dict_keys. induction d as [|[k' v'] d IH]; simpl; [done|].
  rewrite not_elem_of_cons. intros [Hne Hnin].
  rewrite decide_False by congruence. simpl. by rewrite IH.
Qed.

Lemma dict_of_pairs_snoc (ps : list (string * V)) k v :
  dict_of_pairs (ps ++ [(k, v)]) = dict_set k v (dict_of_pairs ps).
Proof. unfold dict_of_pairs. by rewrite fold_left_app. Qed.

Lemma dict_of_pairs_get_elem (ps : list (string * V)) k v :
  dict_get k (dict_of_pairs ps) = Some v → (k, v) ∈ ps.
Proof.
  induction ps as [|[k' v'] ps IH] using rev_ind; [done|].
  rewrite dict_of_pairs_snoc, elem_of_app, list_elem_of_singleton.
  destruct (decide (k' = k)) as [->|Hne].
  - rewrite dict_get_set_eq. intros [= ->]. by right.
  - rewrite dict_get_set_ne by done. intros H. left. by apply IH.
Qed.

Lemma dict_of_pairs_get_absent (ps : list (string * V)) k :
  k ∉ map fst ps → dict_get k (dict_of_pairs ps) = None.
Proof.
  intros Hnin. destruct (dict_get k (dict_of_pairs ps)) as [v|] eqn:E; [|done].
  apply dict_of_pairs_get_elem in E. exfalso. apply Hnin.
  apply list_elem_of_fmap. by exists (k, v).
Qed.

Lemma dict_of_pairs_elem_get (ps : list (string * V)) k v :
  NoDup (map fst ps) → (k, v) ∈ ps → dict_get k (dict_of_pairs ps) = Some v.
Proof.
  induction ps as [|[k' v'] ps IH] using rev_ind; [by intros _ ?%elem_of_nil|].
  rewrite map_app, dict_of_pairs_snoc. simpl.
  intros [Hnd [Hdisj _]]%NoDup_app.
  rewrite elem_of_app, list_elem_of_singleton.
  destruct (decide (k' = k)) as [->|Hne].
  - rewrite dict_get_set_eq. intros [Hin|[= ->]]; [|done].
    exfalso. apply (Hdisj k); [|left].
    apply list_elem_of_fmap. by exists (k, v).
  - rewrite dict_get_set_ne by done. intros [Hin|[= ? ?]]; [|done].
    by apply IH.
Qed.

(** Reordering the pairs of an object with distinct keys does not
    change what any key maps to. *)
Lemma dict_of_pairs_perm (ps ps' : list (string * V)) k :
  NoDup (map fst ps) → Permutation ps ps' →
  dict_get k (dict_of_pairs ps') = dict_get k (dict_of_pairs ps).
Proof.
  intros Hnd Hp.
  assert (Hnd' : NoDup (map fst ps')).
  { assert (Hm : map fst ps ≡ₚ map fst ps') by by apply Permutation_map.
    by rewrite <- Hm. }
  destruct (dict_get k (dict_of_pairs ps)) as [v|] eqn:E.
  - apply dict_of_pairs_elem_get; [done|].
    rewrite <- Hp. by apply dict_of_pairs_get_elem.
  - destruct (dict_get k (dict_of_pairs ps')) as [v'|] eqn:E'; [|done].
    apply dict_of_pairs_get_elem in E'. rewrite <- Hp in E'.
    apply dict_of_pairs_elem_get in E'; [congruence | done].
Qed.
End Dict.

(** ** Outcomes *)

Lemma bind_Return {A B : Type} (a : A) (k : A → outcome B) :
  (Return a ≫= k) = k a.
Proof. done. Qed.

Lemma bind_Raise {A B : Type} (e : pyexn) (k : A → outcome B) :
  (Raise e ≫= k) = Raise e.
Proof. done. Qed.

Lemma bind_inv_Return {A B : Type} (o : outcome A) (k : A → outcome B) b :
  (o ≫= k) = Return b → ∃ a, o = Return a ∧ k a = Return b.
Proof. destruct o as [a|e]; [by exists a | done]. Qed.

(** ** Assembling the feature row *)

Lemma dict_get_tabulate {V : Type} (g : string → V) (l : list string) c :
  dict_get c (map (λ f, (f, g f)) l)
  = if decide (c ∈ l) then Some (g c) else None.
Proof.
  induction l as [|f l IH]; [done|]. cbn [map dict_get].
  destruct (decide (f = c)) as [->|Hne].
  - by rewrite decide_True by left.
  - rewrite IH. destruct (decide (c ∈ l)) as [Hin|Hnin].
    + by rewrite decide_True by by right.
    + rewrite decide_False; [done|].
      rewrite not_elem_of_cons. split; [congruence | done].
Qed.

Lemma Features_validate_get body c :
  c ∈ Features_fields →
  dict_get c (Features_validate body)
  = Some (default None (dict_get c (dict_of_pairs body))).
Proof.
  intros Hin. unfold Features_validate.
  by rewrite (dict_get_tabulate
                (λ f, default None (dict_get f (dict_of_pairs body)))),
    decide_True.
Qed.

(** Every column the handler reads is a declared field. *)
Lemma FEATURE_COLS_fields : FEATURE_COLS = Features_fields.
Proof. reflexivity. Qed.

Lemma build_row_spec (features : Features) (cols : list string) :
  (∀ c, c ∈ cols → is_Some (dict_get c features)) →
  ∀ row0, ∃ row,
    build_row features cols row0 = Return row ∧
    ∀ c, dict_get c row
         = if decide (c ∈ cols) then dict_get c features else dict_get c row0.
Proof.
  induction cols as [|col cols IH]; intros Hattr row0; simpl.
  - exists row0. split; [done|]. intros c. done.
  - destruct (Hattr col) as [v Hv]; [left|].
    unfold getattr. rewrite Hv, bind_Return.
    destruct (IH (λ c Hc, Hattr c (list_elem_of_further _ _ _ Hc))
                 (dict_set col v row0)) as (row & Hrow & Hget).
    exists row. split; [done|]. intros c. rewrite Hget.
    destruct (decide (c ∈ cols)) as [Hin|Hnin].
    + by rewrite decide_True by by right.
    + destruct (decide (c = col)) as [->|Hne].
      * by rewrite decide_True, dict_get_set_eq by left.
      * rewrite decide_False, dict_get_set_ne; [done | congruence |].
        rewrite not_elem_of_cons. done.
Qed.

Lemma DataFrame_of_records_single (row : pydict cell) (cols : list string) :
  DataFrame_of_records [row] cols
  = {| df_columns := cols;
       df_index := [0];
       df_rows := [map (λ c, default None (dict_get c row)) cols] |}.
Proof. reflexivity. Qed.

(** The frame [predict] hands to the pipelines, in closed form. *)
Lemma feature_frame_validate body :
  feature_frame (Features_validate body)
  = Return
      {| df_columns := FEATURE_COLS;
         df_index := [0];
         df_rows :=
           [map (λ c, default None (dict_get c (dict_of_pairs body)))
                FEATURE_COLS] |}.
Proof.
  unfold feature_frame.
  destruct (build_row_spec (Features_validate body) FEATURE_COLS)
    with (row0 := @nil (string * cell)) as (row & -> & Hget).
  { intros c Hc. rewrite Features_validate_get; [by eexists|].
    by rewrite <- FEATURE_COLS_fields. }
  rewrite bind_Return, DataFrame_of_records_single.
  unfold mret, outcome_ret. do 3 f_equal.
  apply map_ext_in. intros c Hc%list_elem_of_In.
  rewrite Hget, decide_True by done.
  rewrite Features_validate_get; [done|]. by rewrite <- FEATURE_COLS_fields.
Qed.

Lemma index_of_lookup c cols :
  c ∈ cols → ∃ i, index_of c cols = Some i ∧ cols !! i = Some c.
Proof.
  induction cols as [|c' cols IH]; [by intros ?%elem_of_nil|].
  simpl. destruct (decide (c' = c)) as [->|Hne].
  - intros _. by exists O.
  - intros [?|Hin]%elem_of_cons; [congruence|].
    destruct (IH Hin) as (i & -> & Hi). by exists (S i).
Qed.

Lemma df_at_row {A : Type} (g : string → A) cols idx c :
  c ∈ cols →
  df_at {| df_columns := cols; df_index := idx; df_rows := [map g cols] |}
        0 c = Some (g c).
Proof.
  intros Hin. destruct (index_of_lookup c cols Hin) as (i & Hi & Hc).
  unfold df_at. simpl. rewrite Hi. simpl.
  change (map g cols) with (g <$> cols).
  by rewrite list_lookup_fmap, Hc.
Qed.

(** C1. For every request body, the frame [predict] assembles has
    exactly the columns of [FEATURE_COLS], in that order, and one row
    with one cell per column.  A schema column the body lacks holds the
    missing value (it is neither dropped nor set to zero); a schema
    column the body gives holds the given value.  The frame depends
    only on what the body maps the schema columns to: keys outside the
    schema do not show, and reordering the keys of the body changes
    nothing. *)
Theorem C1_feature_row_follows_schema (body : list (string * cell)) :
  ∃ X row,
    feature_frame (Features_validate body) = Return X ∧
    df_columns X = FEATURE_COLS ∧
    df_rows X = [row] ∧
    length row = length FEATURE_COLS ∧
    (∀ c, c ∈ FEATURE_COLS → c ∉ map fst body → df_at X 0 c = Some None) ∧
    (∀ c, c ∈ FEATURE_COLS →
          df_at X 0 c = Some (default None (dict_get c (dict_of_pairs body)))) ∧
    (∀ c, c ∉ FEATURE_COLS → df_at X 0 c = None) ∧
    (∀ body',
       (∀ c, c ∈ FEATURE_COLS →
             dict_get c (dict_of_pairs body') = dict_get c (dict_of_pairs body)) →
       feature_frame (Features_validate body') = Return X) ∧
    (∀ body',
       NoDup (map fst body) → Permutation body body' →
       feature_frame (Features_validate body') = Return X).
Proof.
  exists {| df_columns := FEATURE_COLS;
            df_index := [0];
            df_rows :=
              [map (λ c, default None (dict_get c (dict_of_pairs body)))
                   FEATURE_COLS] |},
    (map (λ c, default None (dict_get c (dict_of_pairs body))) FEATURE_COLS).
  assert (Hsame : ∀ body',
    (∀ c, c ∈ FEATURE_COLS →
          dict_get c (dict_of_pairs body') = dict_get c (dict_of_pairs body)) →
    feature_frame (Features_validate body')
    = Return
        {| df_columns := FEATURE_COLS;
           df_index := [0];
           df_rows :=
             [map (λ c, default None (dict_get c (dict_of_pairs body)))
                  FEATURE_COLS] |}).
  { intros body' Hag. rewrite feature_frame_validate. do 3 f_equal.
    apply map_ext_in. intros c Hc%list_elem_of_In. by rewrite Hag. }
  split; [apply feature_frame_validate|].
  split; [reflexivity|]. split; [reflexivity|].
  split; [apply length_map|].
  split; [|split; [|split; [|split]]].
  - intros c Hin Hnin.
    rewrite (df_at_row (λ c, default None (dict_get c (dict_of_pairs body))))
      by done.
    by rewrite dict_of_pairs_get_absent.
  - intros c Hin.
    by rewrite (df_at_row (λ c, default None (dict_get c (dict_of_pairs body)))).
  - intros c Hnin. unfold df_at. cbn [df_columns].
    assert (Hnone : index_of c FEATURE_COLS = None).
    { revert Hnin. generalize FEATURE_COLS. intros l.
      induction l as [|c' l IH]; [done|]. cbn [index_of].
      rewrite not_elem_of_cons. intros [Hne Hnin].
      rewrite decide_False by congruence. by rewrite IH. }
    by rewrite Hnone.
  - exact Hsame.
  - intros body' Hnd Hp. apply Hsame. intros c _.
    by apply dict_of_pairs_perm.
Qed.

Lemma C1_witness :
  ∃ X,
    feature_frame (Features_validate sample_body) = Return X ∧
    df_columns X = FEATURE_COLS ∧
    df_at X 0 "age_years_2022" = Some (Some f45) ∧
    df_at X 0 "bmi" = Some None ∧
    df_at X 0 "k6_distress_score" = Some None ∧
    df_at X 0 "favourite_colour" = None ∧
    feature_frame (Features_validate (reverse sample_body)) = Return X.
Proof.
  destruct (C1_feature_row_follows_schema sample_body)
    as (X & row & HX & Hcols & _ & _ & Habs & Hval & Hout & _ & Hperm).
  exists X. split_and!; [done | done | | | | |].
  - rewrite Hval; [reflexivity | by_compute].
  - rewrite Hval; [reflexivity | by_compute].
  - apply Habs; by_compute.
  - apply Hout. by_compute.
  - apply Hperm; [by_compute|].
    apply Permutation_sym, reverse_Permutation.
Defined.

(** ** Rounding and clamping *)

Lemma round_half_even_nearest (n d : Z) :
  0 < d →
  2 * Z.abs (round_half_even n d * d - n) ≤ d ∧
  (2 * Z.abs (round_half_even n d * d - n) = d →
   Z.even (round_half_even n d) = true).
Proof.
  intros Hd. unfold round_half_even.
  pose proof (Z.div_mod n d ltac:(lia)) as Hdm.
  pose proof (Z.mod_pos_bound n d Hd) as Hr.
  destruct (2 * (n mod d) ?= d) eqn:Hc.
  - apply Z.compare_eq in Hc.
    destruct (Z.even (n / d)) eqn:He.
    + split; [nia | done].
    + split; [nia|]. intros _.
      replace (n / d + 1) with (Z.succ (n / d)) by lia.
      by rewrite Z.even_succ, <- Z.negb_even, He.
  - rewrite Z.compare_lt_iff in Hc. split; nia.
  - rewrite Z.compare_gt_iff in Hc. split; nia.
Qed.

Lemma nearest_of_scaled (r n : Z) (d : positive) :
  2 * Z.abs (r * Z.pos d - n) ≤ Z.pos d →
  (2 * Z.abs (r * Z.pos d - n) = Z.pos d → Z.even r = true) →
  nearest_int_ties_even r (n # d).
Proof.
  intros Hle Heven.
  assert (Hn : (inject_Z r - (n # d) == (r * Z.pos d - n) # d)%Q).
  { unfold Qeq, Qminus, Qplus, Qopp, inject_Z. simpl. lia. }
  split.
  - rewrite Hn. unfold Qle, Qabs. simpl. lia.
  - intros Heq. apply Heven. rewrite Hn in Heq.
    unfold Qeq, Qabs in Heq. simpl in Heq. lia.
Qed.

Lemma nearest_of_int (r : Z) : nearest_int_ties_even r (inject_Z r).
Proof.
  assert (Hn : (inject_Z r - inject_Z r == 0)%Q) by ring.
  split.
  - by rewrite Hn.
  - intros Heq. rewrite Hn in Heq. done.
Qed.

(** [round] succeeds on every finite float and gives the nearest
    integer, ties to even. *)
Lemma py_round_finite (raw : float) (q : Q) :
  float_value raw = Some q →
  ∃ r, py_round raw = Return r ∧ nearest_int_ties_even r q.
Proof.
  destruct raw as [s|s| |s m e]; simpl; try done.
  - intros [= <-]. exists 0. split; [done|]. apply (nearest_of_int 0).
  - destruct (0 <=? e) eqn:He; intros [= <-].
    + eexists. split; [done|]. apply nearest_of_int.
    + apply Z.leb_gt in He. eexists. split; [done|].
      assert (Hpos : 0 < 2 ^ (- e)) by (apply Z.pow_pos_nonneg; lia).
      destruct (round_half_even_nearest (signed s m) (2 ^ (- e)) Hpos)
        as [Hle Hev].
      apply nearest_of_scaled; rewrite Z2Pos.id by done; done.
Qed.

Lemma coerce_round (raw : float) (r : Z) :
  py_round raw = Return r → coerce raw = Return (Z.max 0 r).
Proof. unfold coerce. by intros ->. Qed.

Lemma predict_targets_spec (X : DataFrame cell) (items : pydict Pipeline) :
  (∀ t pipe, (t, pipe) ∈ items →
     ∃ raw rest q, pipe_predict pipe X = Return (raw :: rest) ∧
                   float_value raw = Some q) →
  ∀ outputs0, ∃ outputs,
    predict_targets items X outputs0 = Return outputs ∧
    (∀ t, t ∉ dict_keys items → dict_get t outputs = dict_get t outputs0) ∧
    (NoDup (dict_keys items) →
     ∀ t pipe raw rest,
       (t, pipe) ∈ items → pipe_predict pipe X = Return (raw :: rest) →
       ∃ r, py_round raw = Return r ∧ dict_get t outputs = Some (Z.max 0 r)).
Proof.
  induction items as [|[t0 pipe0] items IH]; intros Hfin outputs0.
  - exists outputs0. split; [done|]. split; [done|].
    intros _ t pipe raw rest Hin. by apply elem_of_nil in Hin.
  - destruct (Hfin t0 pipe0) as (raw0 & rest0 & q0 & Hp0 & Hq0); [left|].
    destruct (py_round_finite raw0 q0 Hq0) as (r0 & Hr0 & _).
    destruct (IH (λ t pipe Hin, Hfin t pipe (list_elem_of_further _ _ _ Hin))
                 (dict_set t0 (Z.max 0 r0) outputs0))
      as (outputs & Hrun & Hkeep & Hval).
    exists outputs. split; [|split].
    + cbn [predict_targets]. rewrite Hp0, bind_Return. cbn [getitem0].
      by rewrite bind_Return, (coerce_round _ _ Hr0), bind_Return.
    + intros t. cbn [dict_keys map fst]. rewrite not_elem_of_cons.
      intros [Hne Hnin]. rewrite (Hkeep t Hnin).
      by apply dict_get_set_ne.
    + cbn [dict_keys map fst]. intros [Hnin Hnd]%NoDup_cons t pipe raw rest.
      intros [[= -> ->]|Hin]%elem_of_cons Hp.
      * rewrite Hp0 in Hp. injection Hp as <- <-. exists r0. split; [done|].
        rewrite (Hkeep t0 Hnin). apply dict_get_set_eq.
      * by apply (Hval Hnd t pipe raw rest).
Qed.

(** C2. Whenever the pipelines answer the request frame with finite
    raw values (negative and fractional ones included), [predict]
    serves, for every target, the integer [max(0, round(raw))] of that
    target's raw value: it is not negative, and [round(raw)] is the
    integer nearest to [raw], the even one at a tie.  (On NaN or an
    infinity [round] raises and nothing is served.) *)
Theorem C2_served_value_is_clamped_round
    (w : world) (st st' : state) (features : Features)
    (models : pydict Pipeline) (X : DataFrame cell) :
  _load_models w st = (Return models, st') →
  NoDup (dict_keys models) →
  feature_frame features = Return X →
  (∀ t pipe, (t, pipe) ∈ models →
     ∃ raw rest q, pipe_predict pipe X = Return (raw :: rest) ∧
                   float_value raw = Some q) →
  ∃ outputs,
    predict w st features = (Ok outputs, st') ∧
    ∀ t pipe raw rest,
      (t, pipe) ∈ models → pipe_predict pipe X = Return (raw :: rest) →
      ∃ q r v,
        float_value raw = Some q ∧
        nearest_int_ties_even r q ∧
        dict_get t outputs = Some v ∧
        v = Z.max 0 r ∧
        0 ≤ v.
Proof.
  intros Hload Hnd HX Hfin.
  destruct (predict_targets_spec X models Hfin []) as (outputs & Hrun & _ & Hval).
  exists outputs. split.
  - unfold predict. by rewrite Hload, HX, bind_Return, Hrun.
  - intros t pipe raw rest Hin Hp.
    destruct (Hfin t pipe Hin) as (raw' & rest' & q & Hp' & Hq).
    rewrite Hp in Hp'. injection Hp' as <- <-.
    destruct (py_round_finite raw q Hq) as (r & Hr & Hnear).
    destruct (Hval Hnd t pipe raw rest Hin Hp) as (r' & Hr' & Hget).
    rewrite Hr in Hr'. injection Hr' as <-.
    exists q, r, (Z.max 0 r). split_and!; [done | done | done | done | lia].
Qed.

Lemma C2_witness :
  ∃ outputs,
    predict good_world cold (Features_validate sample_body)
    = (Ok outputs, snd (_load_models good_world cold)) ∧
    ∃ q r v,
      float_value f_minus_2_5 = Some q ∧
      nearest_int_ties_even r q ∧
      dict_get "er_visits" outputs = Some v ∧
      v = Z.max 0 r ∧
      0 ≤ v.
Proof.
  destruct (C2_served_value_is_clamped_round
              good_world cold (snd (_load_models good_world cold))
              (Features_validate sample_body) good_models
              _ eq_refl ltac:(by_compute) (feature_frame_validate sample_body))
    as (outputs & Hserved & Hval).
  - intros t pipe Hin.
    repeat (apply elem_of_cons in Hin as [[= -> ->]|Hin]);
      [..|by apply elem_of_nil in Hin];
      eexists _, _, _; split; reflexivity.
  - exists outputs. split; [exact Hserved|].
    apply (Hval "er_visits" (constant_pipeline f_minus_2_5) f_minus_2_5 []);
      [do 2 right; left | reflexivity].
Defined.

(** The request of the service description, [{age_years_2022: 45,
    gender: 1}] with two more keys, against pipelines that answer 3.5
    (and -2.5 for [er_visits]). *)
Example predict_sample :
  fst (predict good_world cold (Features_validate sample_body))
  = Ok [("pcp_visits", 4); ("outpatient_visits", 4); ("er_visits", 0);
        ("inpatient_admits", 4); ("home_health_visits", 4); ("rx_fills", 4);
        ("dental_visits", 4); ("equipment_purchases", 4)].
Proof. reflexivity. Qed.

Example coerce_negative_half : coerce f_minus_2_5 = Return 0.
Proof. reflexivity. Qed.

Example coerce_tie_down : coerce f_2_5 = Return 2.
Proof. reflexivity. Qed.

Example coerce_tie_up : coerce f_3_5 = Return 4.
Proof. reflexivity. Qed.

Example coerce_small : coerce f_0_25 = Return 0.
Proof. reflexivity. Qed.

Example coerce_nan_raises : is_return (coerce nan) = false.
Proof. reflexivity. Qed.

(** ** The pipeline cache, one caller at a time *)

Lemma load_targets_log_irrelevant w dir targets :
  ∀ registry log log',
    fst (load_targets w dir targets registry log)
    = fst (load_targets w dir targets registry log').
Proof.
  induction targets as [|t targets IH]; intros registry log log'; [done|].
  cbn [load_targets].
  destruct (path_exists w (model_path_of dir t)); [|done].
  destruct (joblib_load w (model_path_of dir t)); [apply IH | done].
Qed.

(** With every artifact in place the loop loads each remaining target
    once, in order, and adds it to the registry. *)
Lemma load_targets_all_good w dir targets :
  (∀ t, t ∈ targets →
        path_exists w (model_path_of dir t) = true ∧
        is_return (joblib_load w (model_path_of dir t)) = true) →
  ∀ registry log,
    NoDup (dict_keys registry ++ targets) →
    ∃ registry',
      load_targets w dir targets registry log
      = (Return registry', log ++ map (model_path_of dir) targets) ∧
      dict_keys registry' = dict_keys registry ++ targets.
Proof.
  induction targets as [|t targets IH]; intros Hgood registry log Hnd.
  - exists registry. by rewrite !app_nil_r.
  - destruct (Hgood t) as [Hex Hld]; [left|].
    cbn [load_targets]. rewrite Hex.
    destruct (joblib_load w (model_path_of dir t)) as [pipe|]; [|done].
    assert (Hfresh : t ∉ dict_keys registry).
    { apply NoDup_app in Hnd as (_ & Hdisj & _). intros Hin.
      apply (Hdisj t Hin). left. }
    destruct (IH (λ t' Hin, Hgood t' (list_elem_of_further _ _ _ Hin))
                 (dict_set t pipe registry) (log ++ [model_path_of dir t]))
      as (registry' & Hrun & Hkeys).
    { rewrite dict_keys_set_fresh by done. by rewrite <- app_assoc. }
    exists registry'. split.
    + rewrite Hrun. cbn [map]. by rewrite <- app_assoc.
    + rewrite Hkeys, dict_keys_set_fresh by done. by rewrite <- app_assoc.
Qed.

Lemma COUNT_TARGETS_NoDup : NoDup COUNT_TARGETS.
Proof. by_compute. Qed.

Lemma _load_models_deployable w st :
  deployable w → _MODELS st = None →
  ∃ registry,
    _load_models w st
    = (Return registry,
       {| _MODELS := Some registry;
          loads := loads st
                   ++ map (model_path_of (models_dir_of w)) COUNT_TARGETS |}) ∧
    complete registry.
Proof.
  intros [Hdir Hgood] Hcold. unfold _load_models. rewrite Hcold, Hdir.
  destruct (load_targets_all_good w (models_dir_of w) COUNT_TARGETS Hgood
              [] (loads st)) as (registry & -> & Hkeys).
  { apply COUNT_TARGETS_NoDup. }
  by exists registry.
Qed.

Lemma _load_models_Raise_inv w st e st' :
  _load_models w st = (Raise e, st') → _MODELS st = None ∧ _MODELS st' = None.
Proof.
  unfold _load_models. destruct (_MODELS st) eqn:Hm; [done|].
  destruct (path_exists w (models_dir_of w)).
  - destruct (load_targets _ _ _ _ _) as [[registry|e'] log];
      intros [= <- <-]; done.
  - intros [= <- <-]. done.
Qed.

(** From an unloaded cache the outcome of a load does not depend on
    the log of earlier loads. *)
Lemma _load_models_unloaded w st :
  _MODELS st = None →
  fst (_load_models w st) = fst (_load_models w cold) ∧
  _MODELS (snd (_load_models w st)) = _MODELS (snd (_load_models w cold)).
Proof.
  intros Hcold. unfold _load_models. rewrite Hcold. cbn [_MODELS cold loads].
  destruct (path_exists w (models_dir_of w)); [|done].
  pose proof (load_targets_log_irrelevant w (models_dir_of w) COUNT_TARGETS
                [] (loads st) []) as Hfst.
  destruct (load_targets _ _ _ _ (loads st)) as [[r1|e1] l1],
           (load_targets _ _ _ _ []) as [[r2|e2] l2];
    simpl in Hfst; by simplify_eq.
Qed.

(** C4. When [_load_models] raises, the call that triggered it fails
    ([health] and [predict] answer with the error), and [_MODELS] is
    still [None] afterwards: neither the failure nor the pipelines
    read so far are kept.  The next call therefore loads again as a
    cold service would, and once every artifact is in place it loads
    all targets and succeeds. *)
Theorem C4_failed_load_leaves_cache_unloaded
    (w : world) (st st' : state) (e : pyexn) :
  _load_models w st = (Raise e, st') →
  _MODELS st' = None ∧
  health w st = (HTTPException 500 (exn_str e), st') ∧
  (∀ features, predict w st features = (HTTPException 500 (exn_str e), st')) ∧
  (∀ w2, fst (_load_models w2 st') = fst (_load_models w2 cold) ∧
         _MODELS (snd (_load_models w2 st'))
         = _MODELS (snd (_load_models w2 cold))) ∧
  (∀ w2, deployable w2 →
     ∃ registry,
       complete registry ∧
       _load_models w2 st'
       = (Return registry,
          {| _MODELS := Some registry;
             loads := loads st'
                      ++ map (model_path_of (models_dir_of w2))
                             COUNT_TARGETS |}) ∧
       fst (health w2 st') = Ok [("status", "ok")]).
Proof.
  intros Hload. destruct (_load_models_Raise_inv _ _ _ _ Hload) as [_ Hnone].
  split; [done|]. split; [|split; [|split]].
  - unfold health. by rewrite Hload.
  - intros features. unfold predict. by rewrite Hload.
  - intros w2. by apply _load_models_unloaded.
  - intros w2 Hdep.
    destruct (_load_models_deployable w2 st' Hdep Hnone) as (registry & Hrun & Hc).
    exists registry. split; [done|]. split; [done|].
    unfold health. by rewrite Hrun.
Qed.

Lemma good_world_deployable : deployable good_world.
Proof.
  split; [done|]. intros t Hin.
  repeat (apply elem_of_cons in Hin as [->|Hin]);
    [..|by apply elem_of_nil in Hin]; by split.
Qed.

Lemma C4_witness :
  fst (_load_models broken_world cold)
  = Raise (mk_exn RuntimeError ("Missing model file: " +:+ rx_fills_path)) ∧
  _MODELS (snd (_load_models broken_world cold)) = None ∧
  fst (health broken_world cold)
  = HTTPException 500 ("Missing model file: " +:+ rx_fills_path) ∧
  fst (health good_world (snd (_load_models broken_world cold)))
  = Ok [("status", "ok")].
Proof.
  destruct (C4_failed_load_leaves_cache_unloaded
              broken_world cold (snd (_load_models broken_world cold))
              (mk_exn RuntimeError ("Missing model file: " +:+ rx_fills_path))
              eq_refl)
    as (Hnone & Hhealth & _ & _ & Hretry).
  destruct (Hretry good_world good_world_deployable) as (registry & _ & _ & Hok).
  split; [reflexivity|]. split; [exact Hnone|].
  split; [by rewrite Hhealth | exact Hok].
Defined.

(** ** All-or-nothing prediction *)

Lemma predict_targets_fail (X : DataFrame cell) (items : pydict Pipeline)
    t pipe e :
  (t, pipe) ∈ items → pipe_predict pipe X = Raise e →
  ∀ outputs0, ∃ e', predict_targets items X outputs0 = Raise e'.
Proof.
  induction items as [|[t0 pipe0] items IH]; [by intros ?%elem_of_nil|].
  intros [[= -> ->]|Hin]%elem_of_cons Hfail outputs0; cbn [predict_targets].
  - rewrite Hfail. by exists e.
  - destruct (pipe_predict pipe0 X) as [a|e0]; [|by exists e0].
    rewrite bind_Return.
    destruct (getitem0 a) as [pred_value|e0]; [|by exists e0].
    rewrite bind_Return.
    destruct (coerce pred_value) as [v|e0]; [|by exists e0].
    rewrite bind_Return. by apply IH.
Qed.

(** C5. If the pipeline of any one target raises on the request frame,
    [predict] raises the HTTP error for the whole request: it returns
    no mapping at all, not even for the targets that were already
    computed. *)
Theorem C5_predict_all_or_nothing
    (w : world) (st st' : state) (features : Features)
    (models : pydict Pipeline) (X : DataFrame cell)
    (t : string) (pipe : Pipeline) (e : pyexn) :
  _load_models w st = (Return models, st') →
  feature_frame features = Return X →
  (t, pipe) ∈ models →
  pipe_predict pipe X = Raise e →
  ∃ detail, predict w st features = (HTTPException 500 detail, st').
Proof.
  intros Hload HX Hin Hfail.
  destruct (predict_targets_fail X models t pipe e Hin Hfail []) as [e' He'].
  exists (exn_str e'). unfold predict.
  by rewrite Hload, HX, bind_Return, He'.
Qed.

Lemma C5_witness :
  ∃ detail,
    predict flaky_world cold (Features_validate sample_body)
    = (HTTPException 500 detail, snd (_load_models flaky_world cold)).
Proof.
  apply (C5_predict_all_or_nothing
           flaky_world cold (snd (_load_models flaky_world cold))
           (Features_validate sample_body) flaky_models _
           "dental_visits" failing_pipeline
           (mk_exn ValueError "Input contains NaN")
           eq_refl (feature_frame_validate sample_body)).
  - do 6 right. left.
  - reflexivity.
Defined.

Example flaky_predict_detail :
  fst (predict flaky_world cold (Features_validate sample_body))
  = HTTPException 500 "Input contains NaN".
Proof. reflexivity. Qed.

(** ** A missing artifact *)

Lemma load_targets_missing w dir targets t :
  t ∈ targets → path_exists w (model_path_of dir t) = false →
  ∀ registry log, ∃ e log',
    load_targets w dir targets registry log = (Raise e, log').
Proof.
  induction targets as [|t0 targets IH]; [by intros ?%elem_of_nil|].
  intros [->|Hin]%elem_of_cons Hmiss registry log; cbn [load_targets].
  - rewrite Hmiss. by eexists _, _.
  - destruct (path_exists w (model_path_of dir t0)); [|by eexists _, _].
    destruct (joblib_load w (model_path_of dir t0)); [|by eexists _, _].
    by apply IH.
Qed.

Lemma _load_models_missing w st t :
  t ∈ COUNT_TARGETS →
  path_exists w (model_path_of (models_dir_of w) t) = false →
  _MODELS st = None →
  ∃ e st', _load_models w st = (Raise e, st') ∧ _MODELS st' = None.
Proof.
  intros Hin Hmiss Hcold. unfold _load_models. rewrite Hcold.
  destruct (path_exists w (models_dir_of w)); [|by eexists _, _].
  destruct (load_targets_missing w (models_dir_of w) COUNT_TARGETS t
              Hin Hmiss [] (loads st)) as (e & log' & ->).
  by eexists _, _.
Qed.

(** C6. When the artifact file of one target is missing, a service
    that has not loaded its pipelines answers [health] with an HTTP
    500 error and [predict] with an HTTP 500 error, whatever the
    features; and this holds for every request of any run that starts
    unloaded: no prediction is served for any target, and the cache
    stays unloaded. *)
Theorem C6_missing_artifact_blocks_service
    (w : world) (st : state) (t : string) :
  t ∈ COUNT_TARGETS →
  path_exists w (model_path_of (models_dir_of w) t) = false →
  _MODELS st = None →
  (∃ detail, fst (health w st) = HTTPException 500 detail) ∧
  (∀ features, ∃ detail,
     fst (predict w st features) = HTTPException 500 detail) ∧
  (∀ reqs, forallb is_error (fst (serve w st reqs)) = true ∧
           _MODELS (snd (serve w st reqs)) = None).
Proof.
  intros Hin Hmiss Hcold. split; [|split].
  - destruct (_load_models_missing w st t Hin Hmiss Hcold) as (e & st' & Hl & _).
    exists (exn_str e). unfold health. by rewrite Hl.
  - intros features.
    destruct (_load_models_missing w st t Hin Hmiss Hcold) as (e & st' & Hl & _).
    exists (exn_str e). unfold predict. by rewrite Hl.
  - intros reqs. revert st Hcold.
    induction reqs as [|req reqs IH]; intros st Hcold; [done|].
    destruct (_load_models_missing w st t Hin Hmiss Hcold) as (e & st' & Hl & Hn).
    cbn [serve].
    assert (Hh : handle w st req
                 = (match req with
                    | GetHealth => HealthReply (HTTPException 500 (exn_str e))
                    | PostPredict _ =>
                        PredictReply (HTTPException 500 (exn_str e))
                    end, st')).
    { destruct req; unfold handle, health, predict; by rewrite Hl. }
    rewrite Hh. specialize (IH st' Hn).
    destruct (serve w st' reqs) as [rs st'']. cbn [fst snd forallb] in *.
    destruct IH as [-> ->]. by destruct req.
Qed.

Lemma C6_witness :
  (∃ detail, fst (health broken_world cold) = HTTPException 500 detail) ∧
  forallb is_error
    (fst (serve broken_world cold
            [PostPredict (Features_validate sample_body); GetHealth;
             PostPredict (Features_validate [])])) = true.
Proof.
  destruct (C6_missing_artifact_blocks_service broken_world cold "rx_fills"
              ltac:(by_compute) eq_refl eq_refl) as (Hh & _ & Hrun).
  split; [exact Hh|]. apply Hrun.
Defined.

(** ** The registry manager *)

Section RegistryFacts.
Context {Model : Type}.
Variable store : MlflowStore Model.
Variable self : ModelRegistryManager.

Lemma scan_versions_no_match stage (vs : list ModelVersion) :
  Forall (λ v, current_stage v ≠ stage) vs →
  scan_versions store self stage vs
  = (Return None, [Printed ("No model found at stage: " +:+ stage)]).
Proof.
  induction 1 as [|v vs Hne _ IH]; [done|].
  cbn [scan_versions]. by rewrite decide_False.
Qed.
End RegistryFacts.

(** C3, as the code has it.  [fetch_latest_model] returns [None] when
    the store lists no version at the requested stage, and it returns
    the same [None] when the store call raises an [MlflowException]
    (store unreachable).  The two outcomes differ only in the line
    printed: [No model found at stage: ...] against
    [Error fetching model at stage '...': ...]. *)
Theorem C3_fetch_latest_none_on_no_match_and_on_failure
    {Model : Type} (store : MlflowStore Model) (self : ModelRegistryManager)
    (stage : string) :
  let filter_string := "name='" +:+ model_name self +:+ "'" in
  (∀ vs, search_model_versions store filter_string = Return vs →
         Forall (λ v, current_stage v ≠ stage) vs →
         fetch_latest_model store self stage
         = (Return None,
            [CallSearch filter_string;
             Printed ("No model found at stage: " +:+ stage)])) ∧
  (∀ e, search_model_versions store filter_string = Raise e →
        exn_cls e = MlflowException →
        fetch_latest_model store self stage
        = (Return None,
           [CallSearch filter_string;
            Printed ("Error fetching model at stage '" +:+ stage
                     +:+ "': " +:+ exn_str e)])).
Proof.
  intros filter_string. split.
  - intros vs Hs Hno. unfold fetch_latest_model. fold filter_string.
    by rewrite Hs, scan_versions_no_match.
  - intros e Hs Hcls. unfold fetch_latest_model. fold filter_string.
    rewrite Hs. unfold except_MlflowException. by rewrite decide_True.
Qed.

Lemma C3_witness :
  fetch_latest_model live_store meps "Production"
  = (Return None,
     [CallSearch "name='meps'";
      Printed "No model found at stage: Production"]) ∧
  fetch_latest_model down_store meps "Production"
  = (Return None,
     [CallSearch "name='meps'";
      Printed ("Error fetching model at stage 'Production': "
               +:+ exn_str connection_refused)]).
Proof.
  destruct (C3_fetch_latest_none_on_no_match_and_on_failure
              live_store meps "Production") as [Hno _].
  destruct (C3_fetch_latest_none_on_no_match_and_on_failure
              down_store meps "Production") as [_ Hdown].
  split.
  - apply (Hno [staged_version] eq_refl).
    repeat constructor. by_compute.
  - apply (Hdown connection_refused eq_refl eq_refl).
Defined.

(** The value returned for "no version at this stage" on a reachable
    store is the value returned for an unreachable store. *)
Lemma C3_counterexample :
  search_model_versions live_store "name='meps'" = Return [staged_version] ∧
  current_stage staged_version ≠ "Production" ∧
  search_model_versions down_store "name='meps'" = Raise connection_refused ∧
  fst (fetch_latest_model live_store meps "Production")
  = fst (fetch_latest_model down_store meps "Production").
Proof. split_and!; [done | by_compute | done | reflexivity]. Qed.

Example fetch_latest_match :
  fetch_latest_model live_store meps "Staging"
  = (Return (Some "models:/meps/1"),
     [CallSearch "name='meps'";
      Printed "Fetching latest model at stage: Staging";
      CallLoad "models:/meps/1"]).
Proof. reflexivity. Qed.

(** C7, as the code has it.  When the store call of [register_model]
    raises an [MlflowException], whatever its cause, the method
    returns [None] and raises nothing; the cause appears only in the
    printed line.  On success it returns the version the store
    created. *)
Theorem C7_register_model_none_on_store_failure
    {Model : Type} (store : MlflowStore Model) (self : ModelRegistryManager)
    (run : string) :
  let uri := "runs:/" +:+ run +:+ "/model" in
  (∀ e, mlflow_register_model store uri (model_name self) = Raise e →
        exn_cls e = MlflowException →
        register_model store self run
        = (Return None,
           [CallRegister uri (model_name self);
            Printed ("Error registering model: " +:+ exn_str e)])) ∧
  (∀ result, mlflow_register_model store uri (model_name self) = Return result →
        register_model store self run
        = (Return (Some result),
           [CallRegister uri (model_name self);
            Printed ("Registering model with name: " +:+ model_name self
                     +:+ " and run ID: " +:+ run)])).
Proof.
  intros uri. split.
  - intros e Hs Hcls. unfold register_model. fold uri. rewrite Hs.
    unfold except_MlflowException. by rewrite decide_True.
  - intros result Hs. unfold register_model. fold uri. by rewrite Hs.
Qed.

Lemma C7_witness :
  fst (register_model down_store meps "r7") = Return None ∧
  fst (register_model live_store meps "r7")
  = Return (Some {| name := "meps"; version := "2"; current_stage := "None";
                    run_id := "runs:/r7/model" |}).
Proof.
  destruct (C7_register_model_none_on_store_failure down_store meps "r7")
    as [Hfail _].
  destruct (C7_register_model_none_on_store_failure live_store meps "r7")
    as [_ Hok].
  split.
  - by rewrite (Hfail connection_refused eq_refl eq_refl).
  - by rewrite (Hok _ eq_refl).
Defined.

(** Two failures with different causes give the same returned value,
    so the value does not carry the cause. *)
Lemma C7_counterexample :
  mlflow_register_model down_store "runs:/r42/model" "meps"
  = Raise connection_refused ∧
  mlflow_register_model live_store "runs:/r42/model" "meps"
  = Raise run_not_found ∧
  exn_str connection_refused ≠ exn_str run_not_found ∧
  fst (register_model down_store meps "r42") = Return None ∧
  fst (register_model live_store meps "r42") = Return None.
Proof. split_and!; [done | done | by_compute | done | done]. Qed.

(** C8, as the code has it.  [transition_model_stage] checks nothing
    locally: whatever the stage, its first effect is the store call
    with the model name, the version and the stage as given.  When the
    store accepts, the method prints a line and returns [None]; when
    the store rejects the request with an [MlflowException], the
    method prints the store's message and returns [None] as well, so
    the caller gets the same value in both cases. *)
Theorem C8_transition_forwards_and_returns_none
    {Model : Type} (store : MlflowStore Model) (self : ModelRegistryManager)
    (ver : Z) (stage : string) :
  (∃ evs, snd (transition_model_stage store self ver stage)
          = CallTransition (model_name self) ver stage :: evs) ∧
  (transition_model_version_stage store (model_name self) ver stage
   = Return tt →
   transition_model_stage store self ver stage
   = (Return tt,
      [CallTransition (model_name self) ver stage;
       Printed ("Transitioning model '" +:+ model_name self
                +:+ "' to stage: " +:+ stage)])) ∧
  (∀ e, transition_model_version_stage store (model_name self) ver stage
        = Raise e →
        exn_cls e = MlflowException →
        transition_model_stage store self ver stage
        = (Return tt,
           [CallTransition (model_name self) ver stage;
            Printed ("Error transitioning model to stage '" +:+ stage
                     +:+ "': " +:+ exn_str e)])).
Proof.
  unfold transition_model_stage, except_MlflowException. split; [|split].
  - destruct (transition_model_version_stage store (model_name self) ver stage)
      as [[]|e]; [by eexists|].
    destruct (decide (exn_cls e = MlflowException)); by eexists.
  - by intros ->.
  - intros e -> Hcls. by rewrite decide_True.
Qed.

Lemma C8_witness :
  transition_model_stage live_store meps 1 "Production"
  = (Return tt,
     [CallTransition "meps" 1 "Production";
      Printed "Transitioning model 'meps' to stage: Production"]) ∧
  transition_model_stage live_store meps 1 "Bogus"
  = (Return tt,
     [CallTransition "meps" 1 "Bogus";
      Printed ("Error transitioning model to stage 'Bogus': "
               +:+ "Invalid Model Version stage: Bogus")]).
Proof.
  destruct (C8_transition_forwards_and_returns_none
              live_store meps 1 "Production") as (_ & Hok & _).
  destruct (C8_transition_forwards_and_returns_none
              live_store meps 1 "Bogus") as (_ & _ & Hrej).
  split.
  - apply Hok. reflexivity.
  - apply (Hrej (mk_exn MlflowException "Invalid Model Version stage: Bogus"));
      reflexivity.
Defined.

(** A rejected transition returns what an accepted one returns. *)
Lemma C8_counterexample :
  transition_model_version_stage live_store "meps" 1 "Bogus"
  = Raise (mk_exn MlflowException "Invalid Model Version stage: Bogus") ∧
  transition_model_version_stage live_store "meps" 1 "Production"
  = Return tt ∧
  fst (transition_model_stage live_store meps 1 "Bogus")
  = fst (transition_model_stage live_store meps 1 "Production").
Proof. split_and!; reflexivity. Qed.

(** ** The preprocessing helper *)

Lemma mask_lt0_masked (xs : list float) : Forall2 masked xs (mask_lt0 xs).
Proof.
  unfold mask_lt0. induction xs as [|x xs IH]; [constructor|].
  cbn [map zip_with]. constructor; [|exact IH].
  unfold masked. by destruct (float_lt0 x).
Qed.

Lemma mask_lt0_length (xs : list float) : length (mask_lt0 xs) = length xs.
Proof. symmetry. eapply Forall2_length, mask_lt0_masked. Qed.

Lemma mask_lt0_rows (rows : list (list float)) :
  Forall2 masked (concat rows) (concat (map mask_lt0 rows)) ∧
  map length (map mask_lt0 rows) = map length rows.
Proof.
  induction rows as [|r rows [IH1 IH2]]; [by split; [constructor|]|].
  cbn [map concat]. split.
  - apply Forall2_app; [apply mask_lt0_masked | exact IH1].
  - by rewrite mask_lt0_length, IH2.
Qed.

Lemma alloc_spec (h : gmap nat heapobj) (o : heapobj) l h' :
  alloc h o = (l, h') →
  h !! l = None ∧ h' !! l = Some o ∧
  ∀ l0 x, h !! l0 = Some x → h' !! l0 = Some x.
Proof.
  unfold alloc. intros [= <- <-].
  assert (Hfresh : h !! fresh (dom h) = None).
  { apply not_elem_of_dom, is_fresh. }
  split; [done|]. split; [apply lookup_insert_eq|].
  intros l0 x Hl0. rewrite lookup_insert_ne; [done|]. congruence.
Qed.

(** C10. For a scalar, a float array, a Series or a DataFrame,
    [neg_to_nan] returns a new object with the layout of its argument
    (shape, or index and columns) in which every entry below zero has
    become NaN and every other entry is as it was; every object that
    was on the heap before the call, the argument included, is
    unchanged after it. *)
Theorem C10_neg_to_nan_masks_negatives
    (h : gmap nat heapobj) (X : pyval) (o : heapobj) :
  denote h X = Some o →
  ∃ l' h' o',
    neg_to_nan h X = Some (l', h') ∧
    h' !! l' = Some o' ∧
    h !! l' = None ∧
    (∀ l x, h !! l = Some x → h' !! l = Some x) ∧
    layout_of o' = layout_of o ∧
    Forall2 masked (entries o) (entries o').
Proof.
  assert (Harr : ∀ h1 l1 shape data,
    h1 !! l1 = Some (ONDArray shape data) →
    (∀ l x, h !! l = Some x → h1 !! l = Some x) →
    ∃ l' h',
      ('(arr, h2) ← ndarray_copy h1 l1;
       h3 ← ndarray_setitem_lt0_nan h2 arr; Some (arr, h3)) = Some (l', h') ∧
      h' !! l' = Some (ONDArray shape (mask_lt0 data)) ∧
      h !! l' = None ∧
      (∀ l x, h !! l = Some x → h' !! l = Some x)).
  { intros h1 l1 shape data Hl1 Hkeep.
    unfold ndarray_copy. rewrite Hl1.
    destruct (alloc h1 (ONDArray shape data)) as [l2 h2] eqn:Hal.
    destruct (alloc_spec _ _ _ _ Hal) as (Hfresh & Hl2 & Hkeep2).
    exists l2, (<[l2 := ONDArray shape (mask_lt0 data)]> h2).
    split; [|split; [|split]].
    - cbn. unfold ndarray_setitem_lt0_nan. by rewrite Hl2.
    - apply lookup_insert_eq.
    - destruct (h !! l2) as [x|] eqn:E; [|done].
      apply Hkeep in E. congruence.
    - intros l x Hl. rewrite lookup_insert_ne.
      + by apply Hkeep2, Hkeep.
      + intros ->. apply Hkeep in Hl. congruence. }
  destruct X as [x|l]; cbn [denote].
  - intros [= <-]. unfold neg_to_nan. cbn [is_pandas np_asarray].
    destruct (alloc h (ONDArray [] [x])) as [l1 h1] eqn:Hal.
    destruct (alloc_spec _ _ _ _ Hal) as (_ & Hl1 & Hkeep1).
    destruct (Harr h1 l1 [] [x] Hl1 Hkeep1) as (l' & h' & Hrun & Hl' & Hf & Hk).
    exists l', h', (ONDArray [] (mask_lt0 [x])).
    split; [exact Hrun|]. split; [done|]. split; [done|]. split; [done|].
    split; [done | apply mask_lt0_masked].
  - intros Hl. unfold neg_to_nan. cbn [is_pandas np_asarray]. rewrite Hl.
    destruct o as [shape data|index values|frame].
    + destruct (Harr h l shape data Hl (λ _ _ H, H))
        as (l' & h' & Hrun & Hl' & Hf & Hk).
      exists l', h', (ONDArray shape (mask_lt0 data)).
      split; [exact Hrun|]. split; [done|]. split; [done|]. split; [done|].
      split; [done | apply mask_lt0_masked].
    + cbn [pandas_mask_lt0].
      destruct (alloc h (OSeries index (mask_lt0 values))) as [l' h'] eqn:Hal.
      destruct (alloc_spec _ _ _ _ Hal) as (Hf & Hl' & Hk).
      exists l', h', (OSeries index (mask_lt0 values)).
      split; [by cbn; rewrite Hal|].
      split; [done|]. split; [done|]. split; [done|].
      split; [done | apply mask_lt0_masked].
    + cbn [pandas_mask_lt0].
      destruct (alloc h (ODataFrame
                           {| df_columns := df_columns frame;
                              df_index := df_index frame;
                              df_rows := map mask_lt0 (df_rows frame) |}))
        as [l' h'] eqn:Hal.
      destruct (alloc_spec _ _ _ _ Hal) as (Hf & Hl' & Hk).
      destruct (mask_lt0_rows (df_rows frame)) as [Hent Hlay].
      eexists l', h', _.
      split; [by cbn; rewrite Hal|].
      split; [exact Hl'|]. split; [done|]. split; [done|].
      split; [|exact Hent].
      cbn [layout_of df_columns df_index df_rows]. by rewrite Hlay.
Qed.

Lemma C10_witness :
  ∃ l' h' o',
    neg_to_nan sample_heap (VRef 0) = Some (l', h') ∧
    h' !! l' = Some o' ∧
    sample_heap !! l' = None ∧
    (∀ l x, sample_heap !! l = Some x → h' !! l = Some x) ∧
    layout_of o' = LArray [2%nat; 2%nat] ∧
    Forall2 masked [f_minus_1; nan; f_0_25; f_minus_0] (entries o').
Proof.
  exact (C10_neg_to_nan_masks_negatives sample_heap (VRef 0)
           (ONDArray [2%nat; 2%nat] [f_minus_1; nan; f_0_25; f_minus_0])
           eq_refl).
Defined.

Example neg_to_nan_array :
  neg_to_nan sample_heap (VRef 0)
  = Some (3%nat,
          <[3%nat := ONDArray [2%nat; 2%nat] [nan; nan; f_0_25; f_minus_0]]>
            sample_heap).
Proof. by vm_compute. Qed.

Example neg_to_nan_series :
  neg_to_nan sample_heap (VRef 1)
  = Some (3%nat, <[3%nat := OSeries [10; 20] [f_3_5; nan]]> sample_heap).
Proof. by vm_compute. Qed.

Example neg_to_nan_scalar :
  neg_to_nan ∅ (VScalar f_minus_1)
  = Some (1%nat,
          <[1%nat := ONDArray [] [nan]]>
            (<[0%nat := ONDArray [] [f_minus_1]]> ∅)).
Proof. by vm_compute. Qed.

(** ** Concurrent first callers *)

Lemma caller_step_ok w st c :
  cache_ok st → caller_ok c →
  cache_ok (caller_step w st c).1 ∧ caller_ok (caller_step w st c).2.
Proof.
  unfold cache_ok. intros Hst Hc.
  destruct c as [| |registry [|t rest]|registry|r]; cbn [caller_step].
  - destruct (_MODELS st) as [models|] eqn:Hm; cbn; by rewrite ?Hm.
  - destruct (path_exists w (models_dir_of w)); cbn; done.
  - cbn. split; [done|]. cbn in Hc. by rewrite app_nil_r in Hc.
  - destruct (path_exists w _); [|done].
    destruct (joblib_load w _) as [pipe|e]; cbn; [|done].
    split; [done|]. cbn in Hc.
    assert (Hfresh : t ∉ dict_keys registry).
    { pose proof COUNT_TARGETS_NoDup as Hnd. rewrite <- Hc in Hnd.
      apply NoDup_app in Hnd as (_ & Hdisj & _). intros Hin.
      apply (Hdisj t Hin). left. }
    rewrite dict_keys_set_fresh by done. by rewrite <- app_assoc.
  - cbn. done.
  - done.
Qed.

Lemma caller_step_keeps_cache w st c :
  is_Some (_MODELS st) → is_Some (_MODELS (caller_step w st c).1).
Proof.
  intros [m Hm].
  destruct c as [| |registry [|t rest]|registry|r]; cbn [caller_step].
  - rewrite Hm. cbn. rewrite Hm. by eexists.
  - destruct (path_exists w _); cbn; rewrite Hm; by eexists.
  - cbn. rewrite Hm. by eexists.
  - destruct (path_exists w _); [|cbn; rewrite Hm; by eexists].
    destruct (joblib_load w _); cbn; rewrite Hm; by eexists.
  - cbn. by eexists.
  - cbn. rewrite Hm. by eexists.
Qed.

Lemma caller_loaded_mono st st' c :
  (is_Some (_MODELS st) → is_Some (_MODELS st')) →
  caller_loaded st c → caller_loaded st' c.
Proof. intros Hmono. destruct c as [| | | |[r|e]]; cbn; auto. Qed.

Lemma caller_step_loaded w st c :
  deployable w → caller_loaded st c →
  caller_loaded (caller_step w st c).1 (caller_step w st c).2.
Proof.
  intros [Hdir Hgood] Hc.
  destruct c as [| |registry [|t rest]|registry|r]; cbn [caller_step].
  - destruct (_MODELS st) as [models|] eqn:Hm; cbn; [|done].
    rewrite Hm. by eexists.
  - rewrite Hdir. cbn. done.
  - done.
  - cbn in Hc. destruct (Hgood t) as [Hex Hld]; [apply Hc; left|].
    rewrite Hex. destruct (joblib_load w _) as [pipe|e]; [|done].
    cbn. intros x Hx. apply Hc. by right.
  - cbn. by eexists.
  - done.
Qed.

Lemma system_step_ok w s i : system_ok w s → system_ok w (system_step w s i).
Proof.
  intros (Hcache & Hcallers & Hloaded). unfold system_step.
  destruct (callers s !! i) as [c|] eqn:Hi; [|done].
  pose proof (caller_step_ok w (shared s) c Hcache
                (proj1 (Forall_lookup _ _) Hcallers i c Hi)) as [Hc1 Hc2].
  pose proof (caller_step_keeps_cache w (shared s) c) as Hmono.
  pose proof (caller_step_loaded w (shared s) c) as Hstep.
  destruct (caller_step w (shared s) c) as [st' c']. cbn in *.
  split; [done|]. split; [by apply Forall_insert|].
  intros Hdep. specialize (Hloaded Hdep). apply Forall_insert.
  - eapply Forall_impl; [exact Hloaded|].
    intros c0. by apply caller_loaded_mono.
  - apply (Hstep Hdep). by apply (proj1 (Forall_lookup _ _) Hloaded i c).
Qed.

Lemma system_step_length w s i :
  length (callers (system_step w s i)) = length (callers s).
Proof.
  unfold system_step. destruct (callers s !! i) as [c|]; [|done].
  destruct (caller_step w (shared s) c). cbn. apply length_insert.
Qed.

Lemma run_schedule_ok w sched :
  ∀ s, system_ok w s →
       system_ok w (run_schedule w sched s) ∧
       length (callers (run_schedule w sched s)) = length (callers s).
Proof.
  induction sched as [|i sched IH]; intros s Hs; [done|].
  cbn [run_schedule fold_left].
  destruct (IH (system_step w s i) (system_step_ok w s i Hs)) as [Hok Hlen].
  split; [exact Hok|]. fold (run_schedule w sched (system_step w s i)) in *.
  by rewrite Hlen, system_step_length.
Qed.

Lemma arrivals_ok w n : system_ok w (arrivals n).
Proof.
  split; [done|]. split.
  - apply Forall_replicate. done.
  - intros _. apply Forall_replicate. done.
Qed.

(** A caller that runs alone does what the sequential [_load_models]
    does: the interleaving model refines to it. *)
Lemma caller_run_finished w k st r :
  caller_run w k st (Finished r) = (st, Finished r).
Proof. induction k as [|k IH]; [done|]. cbn [caller_run caller_step]. apply IH. Qed.

Lemma caller_run_loop w todo :
  ∀ st registry k,
    caller_run w (length todo + 2 + k) st (AtLoop registry todo)
    = match load_targets w (models_dir_of w) todo registry (loads st) with
      | (Return r, log) =>
          ({| _MODELS := Some r; loads := log |}, Finished (Return r))
      | (Raise e, log) =>
          ({| _MODELS := _MODELS st; loads := log |}, Finished (Raise e))
      end.
Proof.
  induction todo as [|t todo IH]; intros st registry k.
  - cbn. apply caller_run_finished.
  - cbn [length Nat.add caller_run caller_step load_targets].
    destruct (path_exists w _).
    + destruct (joblib_load w _) as [pipe|e].
      * rewrite IH. cbn [loads _MODELS]. done.
      * apply caller_run_finished.
    + rewrite caller_run_finished. by destruct st.
Qed.

Lemma caller_run_sequential w st k :
  caller_run w (length COUNT_TARGETS + 4 + k) st AtTest
  = ((_load_models w st).2, Finished (_load_models w st).1).
Proof.
  unfold _load_models.
  replace (length COUNT_TARGETS + 4 + k)%nat
    with (S (S (length COUNT_TARGETS + 2 + k))) by lia.
  destruct (_MODELS st) as [models|] eqn:Hm.
  - cbn [caller_run caller_step]. rewrite Hm. apply caller_run_finished.
  - cbn [caller_run caller_step]. rewrite Hm. cbn [caller_step].
    destruct (path_exists w (models_dir_of w)).
    + rewrite caller_run_loop. cbn [loads].
      destruct (load_targets _ _ _ _ _) as [[r|e] log]; cbn; by rewrite ?Hm.
    + apply caller_run_finished.
Qed.

(** *** How many loads can run *)

Lemma budget_insert (l : list caller) i c c' :
  l !! i = Some c →
  (total_budget (<[i := c']> l) + budget c = total_budget l + budget c')%nat.
Proof.
  revert i. induction l as [|c0 l IH]; intros [|i] Hi; try done.
  - injection Hi as ->. cbn [list_insert insert total_budget].
    generalize (budget c), (budget c'), (total_budget l). lia.
  - specialize (IH i Hi). revert IH.
    change (<[S i := c']> (c0 :: l)) with (c0 :: <[i := c']> l).
    cbn [total_budget].
    generalize (budget c), (budget c'), (budget c0), (total_budget l),
      (total_budget (<[i := c']> l)). lia.
Qed.

Lemma caller_step_budget w st c :
  (length (loads (caller_step w st c).1) + budget (caller_step w st c).2
   ≤ length (loads st) + budget c)%nat.
Proof.
  destruct c as [| |registry [|t rest]|registry|r]; cbn [caller_step].
  - destruct (_MODELS st); cbn; lia.
  - destruct (path_exists w _); cbn; lia.
  - cbn. lia.
  - destruct (path_exists w _); [|cbn; lia].
    destruct (joblib_load w _); cbn; rewrite length_app; cbn; lia.
  - cbn. lia.
  - cbn. lia.
Qed.

Lemma system_step_budget w s i :
  (length (loads (shared (system_step w s i)))
   + total_budget (callers (system_step w s i))
   ≤ length (loads (shared s)) + total_budget (callers s))%nat.
Proof.
  unfold system_step. destruct (callers s !! i) as [c|] eqn:Hi; [|done].
  pose proof (caller_step_budget w (shared s) c) as Hstep.
  destruct (caller_step w (shared s) c) as [st' c']. cbn in *.
  pose proof (budget_insert (callers s) i c c' Hi). lia.
Qed.

Lemma run_schedule_budget w sched :
  ∀ s,
    (length (loads (shared (run_schedule w sched s)))
     ≤ length (loads (shared s)) + total_budget (callers s))%nat.
Proof.
  induction sched as [|i sched IH]; intros s; [cbn; lia|].
  cbn [run_schedule fold_left]. fold (run_schedule w sched (system_step w s i)).
  pose proof (IH (system_step w s i)). pose proof (system_step_budget w s i).
  lia.
Qed.

Lemma budget_arrivals n :
  total_budget (callers (arrivals n)) = (n * length COUNT_TARGETS)%nat.
Proof.
  cbn [arrivals callers]. induction n as [|n IH]; [done|].
  cbn [replicate total_budget]. rewrite IH. cbn [budget]. lia.
Qed.

Lemma run_schedule_cons w i sched s :
  run_schedule w (i :: sched) s = run_schedule w sched (system_step w s i).
Proof. reflexivity. Qed.

Lemma run_schedule_app w sched1 sched2 s :
  run_schedule w (sched1 ++ sched2) s
  = run_schedule w sched2 (run_schedule w sched1 s).
Proof. apply fold_left_app. Qed.

Lemma system_step_lookup w s i c :
  callers s !! i = Some c →
  system_step w s i
  = {| shared := (caller_step w (shared s) c).1;
       callers := <[i := (caller_step w (shared s) c).2]> (callers s) |}.
Proof.
  intros Hi. unfold system_step. rewrite Hi.
  by destruct (caller_step w (shared s) c).
Qed.

(** A caller scheduled alone for [k] steps moves as [caller_run] says. *)
Lemma run_solo w k :
  ∀ i s c,
    callers s !! i = Some c →
    run_schedule w (replicate k i) s
    = {| shared := (caller_run w k (shared s) c).1;
         callers := <[i := (caller_run w k (shared s) c).2]> (callers s) |}.
Proof.
  induction k as [|k IH]; intros i s c Hi.
  - cbn. rewrite list_insert_id by done. by destruct s.
  - cbn [replicate]. rewrite run_schedule_cons, (system_step_lookup w s i c Hi).
    cbn [caller_run].
    destruct (caller_step w (shared s) c) as [st' c'] eqn:Hstep.
    rewrite (IH i _ c').
    + cbn [shared callers fst snd]. by rewrite list_insert_insert_eq.
    + cbn [callers snd]. apply list_lookup_insert_eq.
      by eapply lookup_lt_Some.
Qed.

(** From the directory test on, a caller alone in a deployment where
    every artifact loads reads every artifact and finishes with a
    complete set. *)
Lemma caller_run_from_dir_check w st :
  deployable w →
  ∃ registry,
    complete registry ∧
    caller_run w (length COUNT_TARGETS + 3) st AtDirCheck
    = ({| _MODELS := Some registry;
          loads := loads st
                   ++ map (model_path_of (models_dir_of w)) COUNT_TARGETS |},
       Finished (Return registry)).
Proof.
  intros [Hdir Hgood].
  destruct (load_targets_all_good w (models_dir_of w) COUNT_TARGETS Hgood
              [] (loads st)) as (registry & Hrun & Hkeys).
  { apply COUNT_TARGETS_NoDup. }
  exists registry. split; [done|].
  replace (length COUNT_TARGETS + 3)%nat
    with (S (length COUNT_TARGETS + 2 + 0)) by lia.
  cbn [caller_run caller_step]. rewrite Hdir.
  by rewrite caller_run_loop, Hrun.
Qed.

(** First phase of [racing]: every caller passes the test of the
    still empty cache. *)
Lemma run_tests w st :
  _MODELS st = None →
  ∀ m done_,
    run_schedule w (seq (length done_) m)
      {| shared := st; callers := done_ ++ replicate m AtTest |}
    = {| shared := st;
         callers := done_ ++ replicate m AtDirCheck |}.
Proof.
  intros Hst. induction m as [|m IH]; intros done_; [done|].
  cbn [seq replicate]. rewrite run_schedule_cons.
  rewrite (system_step_lookup w _ (length done_) AtTest).
  - cbn [shared callers caller_step]. rewrite Hst. cbn [fst snd].
    replace (<[length done_ := AtDirCheck]>
               (done_ ++ AtTest :: replicate m AtTest))
      with ((done_ ++ [AtDirCheck]) ++ replicate m AtTest).
    + replace (S (length done_)) with (length (done_ ++ [AtDirCheck]))
        by (rewrite length_app; cbn; lia).
      rewrite IH. by rewrite <- app_assoc.
    + rewrite <- app_assoc. cbn [app].
      replace (length done_) with (length done_ + 0)%nat at 1 by lia.
      by rewrite insert_app_r.
  - cbn [callers]. by rewrite lookup_app_r, Nat.sub_diag by lia.
Qed.

(** Second phase of [racing]: each caller in turn runs a whole load
    sequence, although the cache may have been set meanwhile. *)
Lemma run_loads w :
  deployable w →
  ∀ m done_ st,
    forallb (λ c, match c with Finished _ => true | _ => false end) done_
    = true →
    let s :=
      run_schedule w
        (concat (map (replicate (length COUNT_TARGETS + 3))
                     (seq (length done_) m)))
        {| shared := st; callers := done_ ++ replicate m AtDirCheck |} in
    all_finished s = true ∧
    length (loads (shared s))
    = (length (loads st) + m * length COUNT_TARGETS)%nat.
Proof.
  intros Hdep. induction m as [|m IH]; intros done_ st Hdone.
  - cbn [seq map concat run_schedule fold_left replicate shared callers].
    unfold all_finished. cbn [callers]. rewrite app_nil_r. split; [done | lia].
  - cbn [seq map concat replicate]. rewrite run_schedule_app.
    rewrite (run_solo w _ (length done_) _ AtDirCheck)
      by (cbn [callers]; by rewrite lookup_app_r, Nat.sub_diag by lia).
    cbn [shared callers].
    destruct (caller_run_from_dir_check w st Hdep) as (registry & _ & ->).
    cbn [fst snd].
    replace (<[length done_ := Finished (Return registry)]>
               (done_ ++ AtDirCheck :: replicate m AtDirCheck))
      with ((done_ ++ [Finished (Return registry)])
              ++ replicate m AtDirCheck).
    + replace (S (length done_))
        with (length (done_ ++ [Finished (Return registry)]))
        by (rewrite length_app; cbn; lia).
      destruct (IH (done_ ++ [Finished (Return registry)])
                   {| _MODELS := Some registry;
                      loads := loads st
                               ++ map (model_path_of (models_dir_of w))
                                      COUNT_TARGETS |})
        as [Hfin Hlen].
      { rewrite forallb_app, Hdone. done. }
      split; [exact Hfin|]. rewrite Hlen. cbn [loads].
      rewrite length_app, length_map. lia.
    + rewrite <- app_assoc. cbn [app].
      replace (length done_) with (length done_ + 0)%nat at 1 by lia.
      by rewrite insert_app_r.
Qed.

(** In a deployment where every artifact loads, the racing schedule
    makes each of the [n] callers run its own load sequence. *)
Lemma racing_loads w n :
  deployable w →
  all_finished (run_schedule w (racing n) (arrivals n)) = true ∧
  length (loads (shared (run_schedule w (racing n) (arrivals n))))
  = (n * length COUNT_TARGETS)%nat.
Proof.
  intros Hdep. unfold racing. rewrite run_schedule_app.
  pose proof (run_tests w cold eq_refl n []) as Htests.
  cbn [length app] in Htests. unfold arrivals. rewrite Htests.
  apply (run_loads w Hdep n [] cold eq_refl).
Qed.

Example racing_schedule_is_racing : racing_schedule = racing 2.
Proof. reflexivity. Qed.

(** C9, as the code has it.  [n] requests reach a cold service and
    their steps inside [_load_models] interleave in any order.  At
    every moment [_MODELS] is either unset or a complete pipeline set,
    and a caller that has returned holds a complete set: a
    half-populated set is never observed.  When every artifact loads
    and all callers have finished, each of them holds a complete set
    and the cache is set.  Nothing makes the load exclusive: the
    callers read at most [n] times the artifacts of all targets, and
    when every artifact loads there is an interleaving in which they
    do read them [n] times, one whole load sequence per caller. *)
Theorem C9_callers_never_see_partial_pipelines
    (w : world) (n : nat) (sched : list nat) :
  let s := run_schedule w sched (arrivals n) in
  length (callers s) = n ∧
  (∀ registry, _MODELS (shared s) = Some registry → complete registry) ∧
  (∀ i registry,
     callers s !! i = Some (Finished (Return registry)) → complete registry) ∧
  (deployable w → all_finished s = true →
   ∀ i c, callers s !! i = Some c →
          ∃ registry, c = Finished (Return registry) ∧ complete registry ∧
                      is_Some (_MODELS (shared s))) ∧
  (length (loads (shared s)) ≤ n * length COUNT_TARGETS)%nat ∧
  (deployable w →
   ∃ sched',
     all_finished (run_schedule w sched' (arrivals n)) = true ∧
     length (loads (shared (run_schedule w sched' (arrivals n))))
     = (n * length COUNT_TARGETS)%nat).
Proof.
  intros s.
  destruct (run_schedule_ok w sched (arrivals n) (arrivals_ok w n))
    as [(Hcache & Hcallers & Hloaded) Hlen].
  fold s in Hcache, Hcallers, Hloaded, Hlen.
  split; [by rewrite Hlen; apply length_replicate|].
  split; [|split; [|split; [|split]]].
  - intros registry Hm. unfold cache_ok in Hcache. by rewrite Hm in Hcache.
  - intros i registry Hi.
    apply (proj1 (Forall_lookup _ _) Hcallers i _ Hi).
  - intros Hdep Hfin i c Hi.
    pose proof (proj1 (Forall_lookup _ _) Hcallers i c Hi) as Hok.
    pose proof (proj1 (Forall_lookup _ _) (Hloaded Hdep) i c Hi) as Hld.
    unfold all_finished in Hfin. rewrite forallb_forall in Hfin.
    specialize (Hfin c). rewrite <- list_elem_of_In in Hfin.
    specialize (Hfin (list_elem_of_lookup_2 _ _ _ Hi)).
    destruct c as [| | | |[registry|e]]; try done.
    by exists registry.
  - pose proof (run_schedule_budget w sched (arrivals n)) as Hb.
    rewrite budget_arrivals in Hb. exact Hb.
  - intros Hdep. exists (racing n). by apply racing_loads.
Qed.

Lemma C9_witness :
  let s := run_schedule good_world racing_schedule (arrivals 2) in
  length (callers s) = 2%nat ∧
  (∀ i c, callers s !! i = Some c →
          ∃ registry, c = Finished (Return registry) ∧ complete registry ∧
                      is_Some (_MODELS (shared s))) ∧
  ∃ sched',
    all_finished (run_schedule good_world sched' (arrivals 2)) = true ∧
    length (loads (shared (run_schedule good_world sched' (arrivals 2))))
    = (2 * length COUNT_TARGETS)%nat.
Proof.
  destruct (C9_callers_never_see_partial_pipelines
              good_world 2 racing_schedule) as (Hlen & _ & _ & Hfin & _ & Hrace).
  split; [exact Hlen|]. split.
  - apply Hfin; [apply good_world_deployable | reflexivity].
  - apply Hrace, good_world_deployable.
Defined.

(** Two callers that both test the cache before either has set it
    each run the whole load: every artifact is read twice. *)
Lemma C9_counterexample :
  let s := run_schedule good_world racing_schedule (arrivals 2) in
  all_finished s = true ∧
  loads (shared s)
  = map (model_path_of (models_dir_of good_world)) COUNT_TARGETS
    ++ map (model_path_of (models_dir_of good_world)) COUNT_TARGETS.
Proof. split; reflexivity. Qed.

(** * Further properties of the service *)

(** ** The cache once loaded *)

Lemma handle_loaded w st req models :
  _MODELS st = Some models →
  (handle w st req).2 = st ∧
  (req = GetHealth → (handle w st req).1 = HealthReply (Ok [("status", "ok")])).
Proof.
  intros Hm. destruct req as [|features]; cbn [handle].
  - unfold health, _load_models. rewrite Hm. by split.
  - unfold predict, _load_models. rewrite Hm.
    destruct (_ ≫= _); by split.
Qed.

Lemma serve_cons w st req reqs :
  serve w st (req :: reqs)
  = ((handle w st req).1 :: (serve w (handle w st req).2 reqs).1,
     (serve w (handle w st req).2 reqs).2).
Proof.
  cbn [serve]. destruct (handle w st req) as [r st']. cbn [fst snd].
  by destruct (serve w st' reqs).
Qed.

Lemma serve_loaded w st models reqs :
  _MODELS st = Some models →
  (serve w st reqs).2 = st ∧ health_replies_ok (serve w st reqs).1.
Proof.
  intros Hm. induction reqs as [|req reqs [IH1 IH2]]; [by split; [|constructor]|].
  rewrite serve_cons. cbn [fst snd].
  destruct (handle_loaded w st req models Hm) as [Hst Hh]. rewrite Hst.
  split; [exact IH1|]. constructor; [|exact IH2].
  destruct req as [|features]; [by rewrite Hh|].
  cbn [handle]. by destruct (predict w st features).
Qed.

(** X1. Once [_MODELS] is set, no request changes the module state or
    reads an artifact again, whatever the file system has become and
    whether or not the predictions succeed: the state after any run of
    requests is the state before it, and every health check in the run
    answers ok. *)
Theorem X1_loaded_cache_is_never_reloaded
    (w : world) (st : state) (models : pydict Pipeline)
    (reqs : list request) :
  _MODELS st = Some models →
  (serve w st reqs).2 = st ∧ health_replies_ok (serve w st reqs).1.
Proof. apply serve_loaded. Qed.

Lemma X1_witness :
  let loaded := (_load_models good_world cold).2 in
  (serve broken_world loaded
     [GetHealth; PostPredict (Features_validate sample_body); GetHealth]).2
  = loaded ∧
  health_replies_ok
    (serve broken_world loaded
       [GetHealth; PostPredict (Features_validate sample_body); GetHealth]).1.
Proof.
  exact (X1_loaded_cache_is_never_reloaded broken_world
           (_load_models good_world cold).2 good_models _ eq_refl).
Defined.

(** ** Loading, one caller at a time *)

Lemma handle_state w st req : (handle w st req).2 = (_load_models w st).2.
Proof.
  destruct req as [|features]; cbn [handle]; unfold health, predict.
  - by destruct (_load_models w st) as [[m|e] st'].
  - destruct (_load_models w st) as [[m|e] st']; [|done].
    by destruct (_ ≫= _).
Qed.

(** X2. In a deployment where every artifact loads, a run of one or
    more requests on an unloaded service reads each artifact exactly
    once, in the order of [COUNT_TARGETS], during its first request,
    whatever the requests are; it ends with a complete pipeline set in
    the cache. *)
Theorem X2_sequential_run_loads_once
    (w : world) (st : state) (req : request) (reqs : list request) :
  deployable w → _MODELS st = None →
  ∃ registry,
    complete registry ∧
    (serve w st (req :: reqs)).2
    = {| _MODELS := Some registry;
         loads := loads st
                  ++ map (model_path_of (models_dir_of w)) COUNT_TARGETS |}.
Proof.
  intros Hdep Hcold.
  destruct (_load_models_deployable w st Hdep Hcold) as (registry & Hrun & Hc).
  exists registry. split; [done|].
  rewrite serve_cons. cbn [snd]. rewrite handle_state, Hrun. cbn [snd].
  by apply (serve_loaded w _ registry).
Qed.

Lemma X2_witness :
  ∃ registry,
    complete registry ∧
    (serve good_world cold
       [PostPredict (Features_validate sample_body); GetHealth;
        PostPredict (Features_validate [])]).2
    = {| _MODELS := Some registry;
         loads := map (model_path_of (models_dir_of good_world))
                      COUNT_TARGETS |}.
Proof.
  exact (X2_sequential_run_loads_once good_world cold _ _
           good_world_deployable eq_refl).
Defined.

Lemma load_targets_prefix w dir pre post :
  (∀ t, t ∈ pre →
        path_exists w (model_path_of dir t) = true ∧
        is_return (joblib_load w (model_path_of dir t)) = true) →
  ∀ registry log, ∃ registry',
    load_targets w dir (pre ++ post) registry log
    = load_targets w dir post registry' (log ++ map (model_path_of dir) pre).
Proof.
  induction pre as [|t pre IH]; intros Hgood registry log.
  - exists registry. by rewrite app_nil_r.
  - destruct (Hgood t) as [Hex Hld]; [left|].
    cbn [app load_targets]. rewrite Hex.
    destruct (joblib_load w (model_path_of dir t)) as [pipe|]; [|done].
    destruct (IH (λ t' Hin, Hgood t' (list_elem_of_further _ _ _ Hin))
                 (dict_set t pipe registry) (log ++ [model_path_of dir t]))
      as [registry' ->].
    exists registry'. cbn [map]. by rewrite <- app_assoc.
Qed.

(** X3. The first target, in the order of [COUNT_TARGETS], whose
    artifact is missing or fails to deserialize decides how the load
    fails: a missing file gives the [RuntimeError] naming that file, a
    failing [joblib.load] gives its own exception.  The artifacts of
    the targets before it have been read, once each and in order; the
    artifacts of the targets after it are not looked at; the cache
    stays unset. *)
Theorem X3_first_bad_artifact_decides_the_error
    (w : world) (st : state) (pre post : list string) (t : string) :
  COUNT_TARGETS = pre ++ t :: post →
  _MODELS st = None →
  path_exists w (models_dir_of w) = true →
  (∀ t', t' ∈ pre →
         path_exists w (model_path_of (models_dir_of w) t') = true ∧
         is_return (joblib_load w (model_path_of (models_dir_of w) t')) = true) →
  let path := model_path_of (models_dir_of w) in
  (path_exists w (path t) = false →
   _load_models w st
   = (Raise (mk_exn RuntimeError ("Missing model file: " +:+ path t)),
      {| _MODELS := None; loads := loads st ++ map path pre |})) ∧
  (∀ e, path_exists w (path t) = true → joblib_load w (path t) = Raise e →
        _load_models w st
        = (Raise e,
           {| _MODELS := None; loads := (loads st ++ map path pre) ++ [path t] |})).
Proof.
  intros Hsplit Hcold Hdir Hgood path.
  destruct (load_targets_prefix w (models_dir_of w) pre (t :: post) Hgood
              [] (loads st)) as [registry' Hrun].
  unfold _load_models. rewrite Hcold, Hdir, Hsplit, Hrun.
  cbn [load_targets]. fold (path t). split.
  - by intros ->.
  - by intros e -> ->.
Qed.

Lemma X3_witness :
  _load_models broken_world cold
  = (Raise (mk_exn RuntimeError ("Missing model file: " +:+ rx_fills_path)),
     {| _MODELS := None;
        loads := map (model_path_of (models_dir_of broken_world))
                     ["pcp_visits"; "outpatient_visits"; "er_visits";
                      "inpatient_admits"; "home_health_visits"] |}).
Proof.
  destruct (X3_first_bad_artifact_decides_the_error broken_world cold
              ["pcp_visits"; "outpatient_visits"; "er_visits";
               "inpatient_admits"; "home_health_visits"]
              ["dental_visits"; "equipment_purchases"] "rx_fills"
              eq_refl eq_refl eq_refl) as [Hmiss _].
  - intros t' Hin.
    repeat (apply elem_of_cons in Hin as [->|Hin]);
      [..|by apply elem_of_nil in Hin]; by split.
  - apply Hmiss. reflexivity.
Defined.

Lemma load_targets_Return_inv w dir targets :
  ∀ registry log registry' log',
    load_targets w dir targets registry log = (Return registry', log') →
    ∀ t, t ∈ targets →
         path_exists w (model_path_of dir t) = true ∧
         is_return (joblib_load w (model_path_of dir t)) = true.
Proof.
  induction targets as [|t0 targets IH]; intros registry log registry' log' Hrun t;
    [by intros ?%elem_of_nil|].
  cbn [load_targets] in Hrun.
  destruct (path_exists w (model_path_of dir t0)) eqn:Hex; [|done].
  destruct (joblib_load w (model_path_of dir t0)) as [pipe|] eqn:Hld; [|done].
  intros [->|Hin]%elem_of_cons.
  - by rewrite Hex, Hld.
  - by eapply IH.
Qed.

(** X4. On a service that has not loaded yet, [health] answers
    [{"status": "ok"}] exactly when the models directory exists and
    the artifact of every target exists and deserializes. *)
Theorem X4_health_ok_iff_deployable (w : world) (st : state) :
  _MODELS st = None →
  (health w st).1 = Ok [("status", "ok")] ↔ deployable w.
Proof.
  intros Hcold. split.
  - unfold health, _load_models. rewrite Hcold.
    destruct (path_exists w (models_dir_of w)) eqn:Hdir; [|done].
    destruct (load_targets _ _ _ _ _) as [[registry|e] log] eqn:Hrun; [|done].
    intros _. split; [done|].
    by eapply load_targets_Return_inv.
  - intros Hdep.
    destruct (_load_models_deployable w st Hdep Hcold) as (registry & Hrun & _).
    unfold health. by rewrite Hrun.
Qed.

Lemma X4_witness :
  (health good_world cold).1 = Ok [("status", "ok")] ∧ ¬ deployable broken_world.
Proof.
  split.
  - apply (X4_health_ok_iff_deployable good_world cold eq_refl),
      good_world_deployable.
  - intros Hdep.
    apply (X4_health_ok_iff_deployable broken_world cold eq_refl) in Hdep.
    discriminate Hdep.
Defined.

(** ** What [predict] returns *)

Lemma load_targets_keys w dir targets :
  ∀ registry log registry' log',
    load_targets w dir targets registry log = (Return registry', log') →
    NoDup (dict_keys registry ++ targets) →
    dict_keys registry' = dict_keys registry ++ targets.
Proof.
  induction targets as [|t targets IH]; intros registry log registry' log' Hrun Hnd.
  - cbn in Hrun. injection Hrun as <- _. by rewrite app_nil_r.
  - cbn [load_targets] in Hrun.
    destruct (path_exists w (model_path_of dir t)); [|done].
    destruct (joblib_load w (model_path_of dir t)) as [pipe|]; [|done].
    assert (Hfresh : t ∉ dict_keys registry).
    { apply NoDup_app in Hnd as (_ & Hdisj & _). intros Hin.
      apply (Hdisj t Hin). left. }
    apply IH in Hrun.
    + rewrite Hrun, dict_keys_set_fresh by done. by rewrite <- app_assoc.
    + rewrite dict_keys_set_fresh by done. by rewrite <- app_assoc.
Qed.

Lemma _load_models_complete w st models st' :
  cache_ok st → _load_models w st = (Return models, st') →
  complete models ∧ _MODELS st' = Some models.
Proof.
  unfold cache_ok, _load_models. intros Hok.
  destruct (_MODELS st) as [m|] eqn:Hm.
  - intros [= <- <-]. by rewrite Hm.
  - destruct (path_exists w (models_dir_of w)); [|done].
    destruct (load_targets _ _ _ _ _) as [[registry|e] log] eqn:Hrun; [|done].
    intros [= <- <-]. split; [|done].
    apply load_targets_keys in Hrun; [done | apply COUNT_TARGETS_NoDup].
Qed.

Lemma dict_set_Forall {V : Type} (P : V → Prop) k v (d : pydict V) :
  P v → Forall (λ kv, P kv.2) d → Forall (λ kv, P kv.2) (dict_set k v d).
Proof.
  intros Hv. induction 1 as [|[k' v'] d Hh Ht IH]; cbn [dict_set].
  - by repeat constructor.
  - destruct (decide (k' = k)); constructor; done.
Qed.

Lemma coerce_nonneg raw v : coerce raw = Return v → 0 ≤ v.
Proof.
  unfold coerce. destruct (py_round raw) as [r|]; [|done].
  intros [= <-]. lia.
Qed.

Lemma predict_targets_keys (X : DataFrame cell) (items : pydict Pipeline) :
  ∀ outputs0 outputs,
    predict_targets items X outputs0 = Return outputs →
    NoDup (dict_keys outputs0 ++ dict_keys items) →
    Forall (λ kv, 0 ≤ kv.2) outputs0 →
    dict_keys outputs = dict_keys outputs0 ++ dict_keys items ∧
    Forall (λ kv, 0 ≤ kv.2) outputs.
Proof.
  induction items as [|[t pipe] items IH]; intros outputs0 outputs Hrun Hnd Hpos.
  - cbn in Hrun. injection Hrun as <-. by rewrite app_nil_r.
  - cbn [predict_targets] in Hrun.
    destruct (pipe_predict pipe X) as [a|]; [|done]. rewrite bind_Return in Hrun.
    destruct (getitem0 a) as [pred_value|]; [|done]. rewrite bind_Return in Hrun.
    destruct (coerce pred_value) as [v|] eqn:Hv; [|done].
    rewrite bind_Return in Hrun.
    change (dict_keys ((t, pipe) :: items)) with (t :: dict_keys items) in *.
    assert (Hfresh : t ∉ dict_keys outputs0).
    { apply NoDup_app in Hnd as (_ & Hdisj & _). intros Hin.
      apply (Hdisj t Hin). left. }
    apply IH in Hrun.
    + destruct Hrun as [Hkeys Hall]. split; [|done].
      rewrite Hkeys, dict_keys_set_fresh by done. by rewrite <- app_assoc.
    + rewrite dict_keys_set_fresh by done. by rewrite <- app_assoc.
    + apply dict_set_Forall; [by eapply coerce_nonneg | done].
Qed.

(** X5. Whenever [predict] returns a mapping, the mapping has exactly
    one entry per target of [COUNT_TARGETS], in that order, every
    value in it is a non-negative integer, and the pipelines are
    loaded afterwards.  (The state is any state the service can be in:
    its cache unset or complete.) *)
Theorem X5_predict_result_covers_all_targets
    (w : world) (st st' : state) (features : Features) (outputs : pydict Z) :
  cache_ok st →
  predict w st features = (Ok outputs, st') →
  dict_keys outputs = COUNT_TARGETS ∧
  Forall (λ kv, 0 ≤ kv.2) outputs ∧
  is_Some (_MODELS st').
Proof.
  intros Hok. unfold predict.
  destruct (_load_models w st) as [[models|e] st1] eqn:Hload; [|done].
  destruct (_load_models_complete w st models st1 Hok Hload) as [Hc Hst].
  destruct (feature_frame features) as [X|]; [|done]. rewrite bind_Return.
  destruct (predict_targets models X []) as [outs|] eqn:Hrun; [|done].
  intros [= <- <-].
  apply predict_targets_keys in Hrun as [Hkeys Hpos].
  - rewrite Hkeys, Hst. split; [exact Hc|]. split; [exact Hpos | by eexists].
  - change (dict_keys [] ++ dict_keys models) with (dict_keys models).
    rewrite Hc. apply COUNT_TARGETS_NoDup.
  - constructor.
Qed.

Lemma X5_witness :
  ∃ outputs,
    (predict good_world cold (Features_validate sample_body)).1 = Ok outputs ∧
    dict_keys outputs = COUNT_TARGETS ∧
    Forall (λ kv, 0 ≤ kv.2) outputs.
Proof.
  destruct (predict good_world cold (Features_validate sample_body))
    as [[outputs|code detail] st'] eqn:Hp; [|discriminate Hp].
  exists outputs. split; [done|].
  destruct (X5_predict_result_covers_all_targets good_world cold st'
              (Features_validate sample_body) outputs I Hp) as (Hk & Hv & _).
  by split.
Defined.

Lemma predict_targets_app (X : DataFrame cell) (pre post : pydict Pipeline) :
  ∀ outputs0,
    predict_targets (pre ++ post) X outputs0
    = predict_targets pre X outputs0 ≫= predict_targets post X.
Proof.
  induction pre as [|[t pipe] pre IH]; intros outputs0; [done|].
  cbn [app predict_targets].
  destruct (pipe_predict pipe X) as [a|]; [|done]. rewrite !bind_Return.
  destruct (getitem0 a) as [pred_value|]; [|done]. rewrite !bind_Return.
  destruct (coerce pred_value) as [v|]; [|done]. rewrite !bind_Return.
  apply IH.
Qed.

(** X6. The pipelines run in the order of the loaded set, and the
    first one that raises ends the request: when every pipeline before
    it answers with a finite value and it raises [e], the detail of
    the HTTP 500 error is [str(e)], whatever the pipelines after it
    would do. *)
Theorem X6_first_failing_pipeline_gives_the_detail
    (w : world) (st st' : state) (features : Features)
    (X : DataFrame cell) (pre post : pydict Pipeline)
    (t : string) (pipe : Pipeline) (e : pyexn) :
  _load_models w st = (Return (pre ++ (t, pipe) :: post), st') →
  feature_frame features = Return X →
  (∀ t' p, (t', p) ∈ pre →
     ∃ raw rest q, pipe_predict p X = Return (raw :: rest) ∧
                   float_value raw = Some q) →
  pipe_predict pipe X = Raise e →
  predict w st features = (HTTPException 500 (exn_str e), st').
Proof.
  intros Hload HX Hpre Hfail.
  destruct (predict_targets_spec X pre Hpre []) as (outs & Hrun & _).
  unfold predict. rewrite Hload, HX, bind_Return, predict_targets_app, Hrun.
  rewrite bind_Return. cbn [predict_targets]. by rewrite Hfail.
Qed.

Lemma X6_witness :
  predict flaky_world cold (Features_validate sample_body)
  = (HTTPException 500 "Input contains NaN", (_load_models flaky_world cold).2).
Proof.
  apply (X6_first_failing_pipeline_gives_the_detail
           flaky_world cold _ (Features_validate sample_body) _
           (take 6 flaky_models) (drop 7 flaky_models)
           "dental_visits" failing_pipeline
           (mk_exn ValueError "Input contains NaN")
           eq_refl (feature_frame_validate sample_body)).
  - intros t' p Hin. cbn in Hin.
    repeat (apply elem_of_cons in Hin as [[= -> ->]|Hin]);
      [..|by apply elem_of_nil in Hin];
      eexists _, _, _; split; reflexivity.
  - reflexivity.
Defined.

Lemma predict_targets_bad_output (X : DataFrame cell) (items : pydict Pipeline)
    t pipe a :
  (t, pipe) ∈ items → pipe_predict pipe X = Return a →
  match a with [] => True | raw :: _ => float_value raw = None end →
  ∀ outputs0, ∃ e', predict_targets items X outputs0 = Raise e'.
Proof.
  induction items as [|[t0 pipe0] items IH]; [by intros ?%elem_of_nil|].
  intros [[= -> ->]|Hin]%elem_of_cons Hp Hbad outputs0; cbn [predict_targets].
  - rewrite Hp, bind_Return. destruct a as [|raw rest]; [by eexists|].
    cbn [getitem0]. rewrite bind_Return. unfold coerce.
    destruct raw as [s|s| |s m e]; cbn in Hbad.
    + done.
    + by eexists.
    + by eexists.
    + by destruct (0 <=? e).
  - destruct (pipe_predict pipe0 X) as [a0|e0]; [|by exists e0].
    rewrite bind_Return.
    destruct (getitem0 a0) as [pred_value|e0]; [|by exists e0].
    rewrite bind_Return.
    destruct (coerce pred_value) as [v|e0]; [|by exists e0].
    rewrite bind_Return. by apply IH.
Qed.

(** X7. A pipeline that answers with an empty array, or whose first
    value is NaN or an infinity, fails the whole request: indexing or
    [round] raises, and [predict] answers HTTP 500 instead of a
    mapping, also for the targets whose pipelines answered well. *)
Theorem X7_unusable_pipeline_output_fails_the_request
    (w : world) (st st' : state) (features : Features)
    (models : pydict Pipeline) (X : DataFrame cell)
    (t : string) (pipe : Pipeline) (a : list float) :
  _load_models w st = (Return models, st') →
  feature_frame features = Return X →
  (t, pipe) ∈ models →
  pipe_predict pipe X = Return a →
  match a with [] => True | raw :: _ => float_value raw = None end →
  ∃ detail, predict w st features = (HTTPException 500 detail, st').
Proof.
  intros Hload HX Hin Hp Hbad.
  destruct (predict_targets_bad_output X models t pipe a Hin Hp Hbad [])
    as [e' He'].
  exists (exn_str e'). unfold predict.
  by rewrite Hload, HX, bind_Return, He'.
Qed.

Lemma X7_witness :
  (∃ detail,
     predict good_world
       (loaded_with [("pcp_visits", constant_pipeline f_3_5);
                     ("er_visits", nan_pipeline)])
       (Features_validate sample_body)
     = (HTTPException 500 detail,
        loaded_with [("pcp_visits", constant_pipeline f_3_5);
                     ("er_visits", nan_pipeline)])) ∧
  (∃ detail,
     predict good_world
       (loaded_with [("pcp_visits", empty_pipeline)])
       (Features_validate sample_body)
     = (HTTPException 500 detail,
        loaded_with [("pcp_visits", empty_pipeline)])).
Proof.
  split.
  - eapply (X7_unusable_pipeline_output_fails_the_request
              good_world
              (loaded_with [("pcp_visits", constant_pipeline f_3_5);
                            ("er_visits", nan_pipeline)])
              _ (Features_validate sample_body) _ _
              "er_visits" nan_pipeline [nan]).
    + reflexivity.
    + apply feature_frame_validate.
    + right; left.
    + reflexivity.
    + reflexivity.
  - eapply (X7_unusable_pipeline_output_fails_the_request
              good_world (loaded_with [("pcp_visits", empty_pipeline)])
              _ (Features_validate sample_body) _ _
              "pcp_visits" empty_pipeline []).
    + reflexivity.
    + apply feature_frame_validate.
    + left.
    + reflexivity.
    + exact I.
Defined.

(** ** The coercion to counts *)

Lemma nearest_bounds (r : Z) (q : Q) :
  nearest_int_ties_even r q →
  (inject_Z r - q <= 1 # 2)%Q ∧ (q - inject_Z r <= 1 # 2)%Q ∧
  ((inject_Z r - q == 1 # 2)%Q → Z.even r = true) ∧
  ((q - inject_Z r == 1 # 2)%Q → Z.even r = true).
Proof.
  intros [Hle Htie]. apply Qabs_Qle_condition in Hle as [Hlo Hhi].
  split; [exact Hhi|]. split; [lra|]. split.
  - intros Heq. apply Htie. rewrite Heq. reflexivity.
  - intros Heq. apply Htie.
    assert (Hneg : (inject_Z r - q == - (1 # 2))%Q) by lra.
    rewrite Hneg. reflexivity.
Qed.

Lemma inject_Z_le_intro (a b : Z) : a ≤ b → (inject_Z a <= inject_Z b)%Q.
Proof. unfold Qle, inject_Z. cbn. lia. Qed.

Lemma inject_Z_le_elim (a b : Z) : (inject_Z a <= inject_Z b)%Q → a ≤ b.
Proof. unfold Qle, inject_Z. cbn. lia. Qed.

Lemma inject_Z_succ (a : Z) : (inject_Z (a + 1) == inject_Z a + 1)%Q.
Proof. rewrite inject_Z_plus. reflexivity. Qed.

(** Rounding to the nearest integer, ties to even, is monotone. *)
Lemma nearest_mono (r1 r2 : Z) (q1 q2 : Q) :
  nearest_int_ties_even r1 q1 → nearest_int_ties_even r2 q2 →
  (q1 <= q2)%Q → r1 ≤ r2.
Proof.
  intros (Hhi1 & _ & Htie1 & _)%nearest_bounds
         (_ & Hlo2 & _ & Htie2)%nearest_bounds Hq.
  destruct (Z_le_gt_dec r1 r2) as [|Hgt]; [done|]. exfalso.
  assert (Hstep : (inject_Z r2 + 1 <= inject_Z r1)%Q).
  { rewrite <- inject_Z_succ. apply inject_Z_le_intro. lia. }
  assert (He1 : Z.even r1 = true) by (apply Htie1; lra).
  assert (He2 : Z.even r2 = true) by (apply Htie2; lra).
  assert (Hup : (inject_Z r1 <= inject_Z (r2 + 1))%Q)
    by (rewrite inject_Z_succ; lra).
  apply inject_Z_le_elim in Hup.
  assert (r1 = Z.succ r2) as -> by lia.
  rewrite Z.even_succ, <- Z.negb_even, He2 in He1. done.
Qed.

(** An integer is the only integer nearest to itself. *)
Lemma nearest_of_integer (r n : Z) (q : Q) :
  nearest_int_ties_even r q → (q == inject_Z n)%Q → r = n.
Proof.
  intros (Hhi & Hlo & _ & _)%nearest_bounds Hq.
  assert (H1 : (inject_Z (2 * r) <= inject_Z (2 * n + 1))%Q).
  { rewrite inject_Z_plus, !inject_Z_mult.
    change (inject_Z 2) with 2%Q. change (inject_Z 1) with 1%Q. lra. }
  assert (H2 : (inject_Z (2 * n) <= inject_Z (2 * r + 1))%Q).
  { rewrite inject_Z_plus, !inject_Z_mult.
    change (inject_Z 2) with 2%Q. change (inject_Z 1) with 1%Q. lra. }
  apply inject_Z_le_elim in H1, H2. lia.
Qed.

(** X8. Larger raw values never give smaller counts: for finite raw
    values [raw1 <= raw2] the served values satisfy
    [coerce raw1 <= coerce raw2]. *)
Theorem X8_coerce_is_monotone (raw1 raw2 : float) (q1 q2 : Q) :
  float_value raw1 = Some q1 → float_value raw2 = Some q2 →
  (q1 <= q2)%Q →
  ∃ v1 v2, coerce raw1 = Return v1 ∧ coerce raw2 = Return v2 ∧ v1 ≤ v2.
Proof.
  intros H1 H2 Hq.
  destruct (py_round_finite raw1 q1 H1) as (r1 & Hr1 & Hn1).
  destruct (py_round_finite raw2 q2 H2) as (r2 & Hr2 & Hn2).
  exists (Z.max 0 r1), (Z.max 0 r2).
  split; [by apply coerce_round|]. split; [by apply coerce_round|].
  pose proof (nearest_mono r1 r2 q1 q2 Hn1 Hn2 Hq). lia.
Qed.

Lemma X8_witness :
  ∃ v1 v2,
    coerce f_minus_2_5 = Return v1 ∧ coerce f_0_25 = Return v2 ∧ v1 ≤ v2.
Proof.
  apply (X8_coerce_is_monotone f_minus_2_5 f_0_25 _ _ eq_refl eq_refl).
  vm_compute. discriminate.
Defined.

(** X9. A finite raw value is served as [0] exactly when it is at
    most one half: every negative value, and also [0.5] itself, which
    [round] takes to the even neighbour [0]. *)
Theorem X9_coerce_zero_iff_at_most_half (raw : float) (q : Q) :
  float_value raw = Some q →
  coerce raw = Return 0 ↔ (q <= 1 # 2)%Q.
Proof.
  intros Hq. destruct (py_round_finite raw q Hq) as (r & Hr & Hn).
  rewrite (coerce_round raw r Hr).
  pose proof (nearest_bounds r q Hn) as (Hhi & Hlo & Htie & _).
  split.
  - intros [= Hmax]. assert (Hr0 : r ≤ 0) by lia.
    apply inject_Z_le_intro in Hr0. change (inject_Z 0) with 0%Q in Hr0. lra.
  - intros Hhalf. f_equal.
    assert (Hr1 : r ≤ 1).
    { apply inject_Z_le_elim. change (inject_Z 1) with 1%Q. lra. }
    destruct (decide (r = 1)) as [->|Hne]; [|lia].
    exfalso. assert (He : Z.even 1 = true); [|done].
    apply Htie. change (inject_Z 1) with 1%Q in *. lra.
Qed.

Lemma X9_witness :
  coerce f_0_5 = Return 0 ∧ coerce f_minus_2_5 = Return 0.
Proof.
  split.
  - apply (X9_coerce_zero_iff_at_most_half f_0_5 _ eq_refl).
    vm_compute. discriminate.
  - apply (X9_coerce_zero_iff_at_most_half f_minus_2_5 _ eq_refl).
    vm_compute. discriminate.
Defined.

(** X10. A raw value that is a whole number [n] is served as [n]
    itself when [n] is not negative, and as [0] otherwise, however
    the float encodes it. *)
Theorem X10_coerce_keeps_whole_numbers (raw : float) (q : Q) (n : Z) :
  float_value raw = Some q → (q == inject_Z n)%Q →
  coerce raw = Return (Z.max 0 n).
Proof.
  intros Hq Hint. destruct (py_round_finite raw q Hq) as (r & Hr & Hn).
  rewrite (coerce_round raw r Hr).
  by rewrite (nearest_of_integer r n q Hn Hint).
Qed.

Lemma X10_witness : coerce f_3_0 = Return 3 ∧ coerce f45 = Return 45.
Proof.
  split.
  - apply (X10_coerce_keeps_whole_numbers f_3_0 _ 3 eq_refl). reflexivity.
  - apply (X10_coerce_keeps_whole_numbers f45 _ 45 eq_refl). reflexivity.
Defined.

(** ** More on [neg_to_nan] *)

Lemma neg_to_nan_eval (h : gmap nat heapobj) (X : pyval) (o : heapobj) :
  denote h X = Some o →
  ∃ l' h',
    neg_to_nan h X = Some (l', h') ∧
    h' !! l' = Some (mask_obj o) ∧
    h !! l' = None ∧
    (∀ l x, h !! l = Some x → h' !! l = Some x).
Proof.
  assert (Harr : ∀ h1 l1 shape data,
    h1 !! l1 = Some (ONDArray shape data) →
    (∀ l x, h !! l = Some x → h1 !! l = Some x) →
    ∃ l' h',
      ('(arr, h2) ← ndarray_copy h1 l1;
       h3 ← ndarray_setitem_lt0_nan h2 arr; Some (arr, h3)) = Some (l', h') ∧
      h' !! l' = Some (ONDArray shape (mask_lt0 data)) ∧
      h !! l' = None ∧
      (∀ l x, h !! l = Some x → h' !! l = Some x)).
  { intros h1 l1 shape data Hl1 Hkeep.
    unfold ndarray_copy. rewrite Hl1.
    destruct (alloc h1 (ONDArray shape data)) as [l2 h2] eqn:Hal.
    destruct (alloc_spec _ _ _ _ Hal) as (Hfresh & Hl2 & Hkeep2).
    exists l2, (<[l2 := ONDArray shape (mask_lt0 data)]> h2).
    split; [|split; [|split]].
    - cbn. unfold ndarray_setitem_lt0_nan. by rewrite Hl2.
    - apply lookup_insert_eq.
    - destruct (h !! l2) as [x|] eqn:E; [|done].
      apply Hkeep in E. congruence.
    - intros l x Hl. rewrite lookup_insert_ne.
      + by apply Hkeep2, Hkeep.
      + intros ->. apply Hkeep in Hl. congruence. }
  destruct X as [x|l]; cbn [denote].
  - intros [= <-]. unfold neg_to_nan. cbn [is_pandas np_asarray].
    destruct (alloc h (ONDArray [] [x])) as [l1 h1] eqn:Hal.
    destruct (alloc_spec _ _ _ _ Hal) as (_ & Hl1 & Hkeep1).
    apply (Harr h1 l1 [] [x] Hl1 Hkeep1).
  - intros Hl. unfold neg_to_nan. cbn [is_pandas np_asarray]. rewrite Hl.
    destruct o as [shape data|index values|frame].
    + apply (Harr h l shape data Hl (λ _ _ H, H)).
    + cbn [pandas_mask_lt0 mask_obj].
      destruct (alloc h (OSeries index (mask_lt0 values))) as [l' h'] eqn:Hal.
      destruct (alloc_spec _ _ _ _ Hal) as (Hf & Hl' & Hk).
      exists l', h'. split; [by cbn; rewrite Hal | done].
    + cbn [pandas_mask_lt0 mask_obj].
      destruct (alloc h (ODataFrame
                           {| df_columns := df_columns frame;
                              df_index := df_index frame;
                              df_rows := map mask_lt0 (df_rows frame) |}))
        as [l' h'] eqn:Hal.
      destruct (alloc_spec _ _ _ _ Hal) as (Hf & Hl' & Hk).
      exists l', h'. split; [by cbn; rewrite Hal | done].
Qed.

Lemma mask_lt0_cons x xs :
  mask_lt0 (x :: xs) = (if float_lt0 x then nan else x) :: mask_lt0 xs.
Proof. reflexivity. Qed.

Lemma mask_lt0_no_negative (xs : list float) :
  Forall (λ y, float_lt0 y = false) (mask_lt0 xs).
Proof.
  induction xs as [|x xs IH]; [constructor|].
  rewrite mask_lt0_cons. constructor; [|exact IH].
  by destruct (float_lt0 x) eqn:E.
Qed.

Lemma mask_lt0_id (xs : list float) :
  Forall (λ x, float_lt0 x = false) xs → mask_lt0 xs = xs.
Proof.
  induction 1 as [|x xs Hx _ IH]; [done|].
  by rewrite mask_lt0_cons, Hx, IH.
Qed.

Lemma mask_obj_no_negative (o : heapobj) : no_negative (mask_obj o).
Proof.
  unfold no_negative. destruct o as [shape data|index values|frame]; cbn.
  - apply mask_lt0_no_negative.
  - apply mask_lt0_no_negative.
  - induction (df_rows frame) as [|r rows IH]; [constructor|].
    cbn. apply Forall_app. split; [apply mask_lt0_no_negative | exact IH].
Qed.

Lemma mask_obj_id (o : heapobj) : no_negative o → mask_obj o = o.
Proof.
  unfold no_negative. destruct o as [shape data|index values|frame]; cbn.
  - by intros ->%mask_lt0_id.
  - by intros ->%mask_lt0_id.
  - intros Hall. destruct frame as [cols idx rows]. cbn in *. do 2 f_equal.
    induction rows as [|r rows IH]; [done|].
    cbn in Hall. apply Forall_app in Hall as [Hr Hrows].
    cbn. by rewrite (mask_lt0_id r Hr), IH.
Qed.

(** X11. The object [neg_to_nan] returns has no entry below zero, and
    [neg_to_nan] is idempotent on contents: applied to its own result
    it returns one more new object, equal to that result, and leaves
    the result in place. *)
Theorem X11_neg_to_nan_idempotent
    (h : gmap nat heapobj) (X : pyval) (o : heapobj) :
  denote h X = Some o →
  ∃ l1 h1 o1 l2 h2,
    neg_to_nan h X = Some (l1, h1) ∧
    h1 !! l1 = Some o1 ∧
    no_negative o1 ∧
    neg_to_nan h1 (VRef l1) = Some (l2, h2) ∧
    l2 ≠ l1 ∧
    h2 !! l2 = Some o1 ∧
    h2 !! l1 = Some o1.
Proof.
  intros Hden.
  destruct (neg_to_nan_eval h X o Hden) as (l1 & h1 & Hrun1 & Hl1 & _ & _).
  destruct (neg_to_nan_eval h1 (VRef l1) (mask_obj o) Hl1)
    as (l2 & h2 & Hrun2 & Hl2 & Hfresh & Hkeep).
  exists l1, h1, (mask_obj o), l2, h2.
  split; [done|]. split; [done|]. split; [apply mask_obj_no_negative|].
  split; [done|]. split; [congruence|]. split.
  - by rewrite Hl2, (mask_obj_id _ (mask_obj_no_negative o)).
  - by apply Hkeep.
Qed.

Lemma X11_witness :
  ∃ l1 h1 o1 l2 h2,
    neg_to_nan sample_heap (VRef 1) = Some (l1, h1) ∧
    h1 !! l1 = Some o1 ∧
    no_negative o1 ∧
    neg_to_nan h1 (VRef l1) = Some (l2, h2) ∧
    l2 ≠ l1 ∧
    h2 !! l2 = Some o1 ∧
    h2 !! l1 = Some o1.
Proof.
  exact (X11_neg_to_nan_idempotent sample_heap (VRef 1)
           (OSeries [10; 20] [f_3_5; f_minus_2_5]) eq_refl).
Defined.

(** X12. On an argument without any entry below zero (NaN, zeros and
    [+inf] allowed) [neg_to_nan] returns an equal copy: a new object
    with the same contents, never the argument itself. *)
Theorem X12_neg_to_nan_copies_nonnegative_input
    (h : gmap nat heapobj) (X : pyval) (o : heapobj) :
  denote h X = Some o → no_negative o →
  ∃ l' h',
    neg_to_nan h X = Some (l', h') ∧
    h' !! l' = Some o ∧
    h !! l' = None ∧
    X ≠ VRef l'.
Proof.
  intros Hden Hpos.
  destruct (neg_to_nan_eval h X o Hden) as (l' & h' & Hrun & Hl' & Hfresh & _).
  exists l', h'. rewrite (mask_obj_id o Hpos) in Hl'.
  split; [done|]. split; [done|]. split; [done|].
  intros ->. cbn in Hden. congruence.
Qed.

Lemma X12_witness :
  ∃ l' h',
    neg_to_nan clean_heap (VRef 0) = Some (l', h') ∧
    h' !! l' = Some clean_array ∧
    clean_heap !! l' = None ∧
    VRef 0 ≠ VRef l'.
Proof.
  apply (X12_neg_to_nan_copies_nonnegative_input
           clean_heap (VRef 0) clean_array eq_refl).
  repeat constructor.
Defined.

(** ** The unpickling shim *)




(** ** More on the registry manager *)

Section RegistryMore.
Context {Model : Type}.
Variable store : MlflowStore Model.
Variable self : ModelRegistryManager.

Lemma scan_versions_first_match stage (pre post : list ModelVersion) v :
  Forall (λ v', current_stage v' ≠ stage) pre →
  current_stage v = stage →
  scan_versions store self stage (pre ++ v :: post)
  = let uri := "models:/" +:+ model_name self +:+ "/" +:+ version v in
    let evs := [Printed ("Fetching latest model at stage: " +:+ stage);
                CallLoad uri] in
    match sklearn_load_model store uri with
    | Return m => (Return (Some m), evs)
    | Raise e => (Raise e, evs)
    end.
Proof.
  intros Hpre Hv. induction Hpre as [|v' pre Hne _ IH]; cbn [app scan_versions].
  - by rewrite decide_True.
  - by rewrite decide_False.
Qed.

Lemma scan_versions_events stage (vs : list ModelVersion) :
  (∃ line, (scan_versions store self stage vs).2 = [Printed line]) ∨
  (∃ line uri, (scan_versions store self stage vs).2
               = [Printed line; CallLoad uri]).
Proof.
  induction vs as [|v vs IH]; cbn [scan_versions]; [left; by eexists|].
  destruct (decide (current_stage v = stage)); [|exact IH].
  right. destruct (sklearn_load_model store _); by eexists _, _.
Qed.
End RegistryMore.

(** X14. [fetch_latest_model] returns the model of the first version,
    in the order the store lists them, whose stage is the requested
    one: it loads that version and no other, also when later versions
    occupy the same stage. *)
Theorem X14_fetch_latest_takes_first_listed_match
    {Model : Type} (store : MlflowStore Model) (self : ModelRegistryManager)
    (stage : string) (pre post : list ModelVersion) (v : ModelVersion)
    (m : Model) :
  let filter_string := "name='" +:+ model_name self +:+ "'" in
  let uri := "models:/" +:+ model_name self +:+ "/" +:+ version v in
  search_model_versions store filter_string = Return (pre ++ v :: post) →
  Forall (λ v', current_stage v' ≠ stage) pre →
  current_stage v = stage →
  sklearn_load_model store uri = Return m →
  fetch_latest_model store self stage
  = (Return (Some m),
     [CallSearch filter_string;
      Printed ("Fetching latest model at stage: " +:+ stage);
      CallLoad uri]).
Proof.
  intros filter_string uri Hs Hpre Hv Hload. subst filter_string uri.
  unfold fetch_latest_model. rewrite Hs.
  rewrite scan_versions_first_match by done. cbv zeta. by rewrite Hload.
Qed.

Lemma X14_witness :
  fetch_latest_model crowded_store meps "Production"
  = (Return (Some "models:/meps/3"),
     [CallSearch "name='meps'";
      Printed "Fetching latest model at stage: Production";
      CallLoad "models:/meps/3"]).
Proof.
  apply (X14_fetch_latest_takes_first_listed_match crowded_store meps
           "Production" (take 1 listed_versions) (drop 2 listed_versions)
           {| name := "meps"; version := "3"; current_stage := "Production";
              run_id := "r3" |} "models:/meps/3" eq_refl).
  - repeat constructor. by_compute.
  - reflexivity.
  - reflexivity.
Defined.

(** X15. When loading the first matching version fails with an
    [MlflowException], [fetch_latest_model] gives up: it prints the
    error and returns [None], without trying the other versions at
    that stage. *)
Theorem X15_fetch_latest_does_not_fall_back
    {Model : Type} (store : MlflowStore Model) (self : ModelRegistryManager)
    (stage : string) (pre post : list ModelVersion) (v : ModelVersion)
    (e : pyexn) :
  let filter_string := "name='" +:+ model_name self +:+ "'" in
  let uri := "models:/" +:+ model_name self +:+ "/" +:+ version v in
  search_model_versions store filter_string = Return (pre ++ v :: post) →
  Forall (λ v', current_stage v' ≠ stage) pre →
  current_stage v = stage →
  sklearn_load_model store uri = Raise e →
  exn_cls e = MlflowException →
  fetch_latest_model store self stage
  = (Return None,
     [CallSearch filter_string;
      Printed ("Fetching latest model at stage: " +:+ stage);
      CallLoad uri;
      Printed ("Error fetching model at stage '" +:+ stage
               +:+ "': " +:+ exn_str e)]).
Proof.
  intros filter_string uri Hs Hpre Hv Hload Hcls. subst filter_string uri.
  unfold fetch_latest_model. rewrite Hs.
  rewrite scan_versions_first_match by done. cbv zeta. rewrite Hload.
  unfold except_MlflowException. by rewrite decide_True.
Qed.

Lemma X15_witness :
  (fetch_latest_model lossy_store meps "Production").1 = Return None ∧
  store_calls (fetch_latest_model lossy_store meps "Production").2
  = [CallSearch "name='meps'"; CallLoad "models:/meps/3"].
Proof.
  rewrite (X15_fetch_latest_does_not_fall_back lossy_store meps
             "Production" (take 1 listed_versions) (drop 2 listed_versions)
             {| name := "meps"; version := "3"; current_stage := "Production";
                run_id := "r3" |} artifact_gone eq_refl).
  - split; reflexivity.
  - repeat constructor. by_compute.
  - reflexivity.
  - reflexivity.
  - reflexivity.
Defined.

(** X16. Only [MlflowException] is handled.  When the store call of
    [register_model], of [transition_model_stage] or of
    [fetch_latest_model] raises an exception of another class, the
    method raises it to its caller and prints nothing. *)
Theorem X16_other_exceptions_reach_the_caller
    {Model : Type} (store : MlflowStore Model) (self : ModelRegistryManager)
    (e : pyexn) :
  exn_cls e ≠ MlflowException →
  (∀ run,
     mlflow_register_model store ("runs:/" +:+ run +:+ "/model")
                           (model_name self) = Raise e →
     register_model store self run
     = (Raise e,
        [CallRegister ("runs:/" +:+ run +:+ "/model") (model_name self)])) ∧
  (∀ ver stage,
     transition_model_version_stage store (model_name self) ver stage
     = Raise e →
     transition_model_stage store self ver stage
     = (Raise e, [CallTransition (model_name self) ver stage])) ∧
  (∀ stage,
     search_model_versions store ("name='" +:+ model_name self +:+ "'")
     = Raise e →
     fetch_latest_model store self stage
     = (Raise e, [CallSearch ("name='" +:+ model_name self +:+ "'")])).
Proof.
  intros Hcls. split; [|split].
  - intros run Hs. unfold register_model, except_MlflowException.
    by rewrite Hs, decide_False.
  - intros ver stage Hs.
    unfold transition_model_stage, except_MlflowException.
    by rewrite Hs, decide_False.
  - intros stage Hs. unfold fetch_latest_model, except_MlflowException.
    by rewrite Hs, decide_False.
Qed.

Lemma X16_witness :
  (register_model buggy_store meps "r7").1 = Raise type_error ∧
  (transition_model_stage buggy_store meps 1 "Staging").1 = Raise type_error ∧
  (fetch_latest_model buggy_store meps "Staging").1 = Raise type_error.
Proof.
  destruct (X16_other_exceptions_reach_the_caller buggy_store meps type_error)
    as (Hreg & Htr & Hfetch); [by_compute|].
  split; [by rewrite (Hreg "r7" eq_refl)|].
  split; [by rewrite (Htr 1 "Staging" eq_refl)|].
  by rewrite (Hfetch "Staging" eq_refl).
Defined.

(** X17. No method retries or makes a call it was not asked for:
    [register_model] makes exactly one call to the store, the
    registration; [transition_model_stage] exactly one, the
    transition; [fetch_latest_model] one search, followed by at most
    one load.  This holds whatever the store answers. *)
Theorem X17_one_store_request_per_method
    {Model : Type} (store : MlflowStore Model) (self : ModelRegistryManager) :
  (∀ run,
     store_calls (register_model store self run).2
     = [CallRegister ("runs:/" +:+ run +:+ "/model") (model_name self)]) ∧
  (∀ ver stage,
     store_calls (transition_model_stage store self ver stage).2
     = [CallTransition (model_name self) ver stage]) ∧
  (∀ stage,
     let search := CallSearch ("name='" +:+ model_name self +:+ "'") in
     store_calls (fetch_latest_model store self stage).2 = [search] ∨
     ∃ uri, store_calls (fetch_latest_model store self stage).2
            = [search; CallLoad uri]).
Proof.
  split; [|split].
  - intros run. unfold register_model, except_MlflowException.
    destruct (mlflow_register_model store _ _) as [result|e]; [done|].
    by destruct (decide (exn_cls e = MlflowException)).
  - intros ver stage. unfold transition_model_stage, except_MlflowException.
    destruct (transition_model_version_stage store _ _ _) as [[]|e]; [done|].
    by destruct (decide (exn_cls e = MlflowException)).
  - intros stage search. unfold fetch_latest_model, except_MlflowException.
    destruct (search_model_versions store _) as [vs|e].
    + pose proof (scan_versions_events store self stage vs) as Hev.
      destruct (scan_versions store self stage vs) as [[r|e] evs]; cbn in Hev.
      * destruct Hev as [[line ->]|(line & uri & ->)]; [by left|].
        right. by exists uri.
      * destruct (decide (exn_cls e = MlflowException)).
        -- destruct Hev as [[line ->]|(line & uri & ->)]; [by left|].
           right. by exists uri.
        -- destruct Hev as [[line ->]|(line & uri & ->)]; [by left|].
           right. by exists uri.
    + destruct (decide (exn_cls e = MlflowException)); by left.
Qed.

(** ** Concurrent callers get the sequential result *)

Lemma _load_models_cold w :
  (_load_models w cold).1
  = if path_exists w (models_dir_of w)
    then (load_targets w (models_dir_of w) COUNT_TARGETS [] []).1
    else Raise (mk_exn RuntimeError
                  ("Models directory not found: " +:+ models_dir_of w)).
Proof.
  unfold _load_models. cbn [_MODELS cold loads].
  destruct (path_exists w (models_dir_of w)); [|done].
  by destruct (load_targets _ _ _ _ _) as [[r|e] log].
Qed.

Lemma caller_step_agrees w st c :
  cache_agrees w st → caller_agrees w c →
  cache_agrees w (caller_step w st c).1 ∧ caller_agrees w (caller_step w st c).2.
Proof.
  unfold cache_agrees. intros Hst Hc.
  destruct c as [| |registry [|t rest]|registry|r]; cbn [caller_step].
  - destruct (_MODELS st) as [models|] eqn:Hm;
      cbn [fst snd caller_agrees]; rewrite Hm; done.
  - destruct (path_exists w (models_dir_of w)) eqn:Hdir;
      cbn [fst snd caller_agrees].
    + done.
    + split; [done|]. by rewrite _load_models_cold, Hdir.
  - cbn [fst snd caller_agrees] in *. destruct Hc as [Hdir Hc].
    split; [done|]. split; [done|]. by rewrite <- Hc.
  - cbn [caller_agrees] in Hc. destruct Hc as [Hdir Hc].
    cbn [load_targets] in Hc.
    destruct (path_exists w (model_path_of (models_dir_of w) t)).
    + destruct (joblib_load w _) as [pipe|e];
        cbn [fst snd caller_agrees _MODELS].
      * split; [done|]. split; [done|]. rewrite <- Hc.
        apply load_targets_log_irrelevant.
      * split; [done|]. by rewrite _load_models_cold, Hdir, <- Hc.
    + cbn [fst snd caller_agrees].
      split; [done|]. by rewrite _load_models_cold, Hdir, <- Hc.
  - cbn [fst snd caller_agrees _MODELS] in *. destruct Hc as [Hdir Hc].
    rewrite _load_models_cold, Hdir, Hc. done.
  - done.
Qed.

Lemma run_schedule_agrees w sched :
  ∀ s, cache_agrees w (shared s) → Forall (caller_agrees w) (callers s) →
       cache_agrees w (shared (run_schedule w sched s)) ∧
       Forall (caller_agrees w) (callers (run_schedule w sched s)).
Proof.
  induction sched as [|i sched IH]; intros s Hcache Hcallers; [done|].
  rewrite run_schedule_cons. apply IH.
  - unfold system_step. destruct (callers s !! i) as [c|] eqn:Hi; [|done].
    pose proof (caller_step_agrees w (shared s) c Hcache
                  (proj1 (Forall_lookup _ _) Hcallers i c Hi)) as [H1 _].
    by destruct (caller_step w (shared s) c).
  - unfold system_step. destruct (callers s !! i) as [c|] eqn:Hi; [|done].
    pose proof (caller_step_agrees w (shared s) c Hcache
                  (proj1 (Forall_lookup _ _) Hcallers i c Hi)) as [_ H2].
    destruct (caller_step w (shared s) c). by apply Forall_insert.
Qed.

(** X18. Racing callers differ only in how much they load, not in
    what they get: in every interleaving of [n] first callers, a
    caller that has left [_load_models] has returned or raised exactly
    what a single caller on a cold service returns or raises, and a
    cache that is set holds that same pipeline set. *)
Theorem X18_racing_callers_get_the_sequential_result
    (w : world) (n : nat) (sched : list nat) :
  let s := run_schedule w sched (arrivals n) in
  (∀ i r, callers s !! i = Some (Finished r) → r = (_load_models w cold).1) ∧
  (∀ models, _MODELS (shared s) = Some models →
             (_load_models w cold).1 = Return models).
Proof.
  intros s.
  destruct (run_schedule_agrees w sched (arrivals n)) as [Hcache Hcallers].
  { done. }
  { apply Forall_replicate. done. }
  fold s in Hcache, Hcallers. split.
  - intros i r Hi. apply (proj1 (Forall_lookup _ _) Hcallers i _ Hi).
  - intros models Hm. unfold cache_agrees in Hcache. by rewrite Hm in Hcache.
Qed.

Lemma X18_witness :
  callers (run_schedule good_world racing_schedule (arrivals 2)) !! 1%nat
  = Some (Finished (_load_models good_world cold).1).
Proof.
  destruct (X18_racing_callers_get_the_sequential_result
              good_world 2 racing_schedule) as [Hres _].
  assert (Hc : callers (run_schedule good_world racing_schedule (arrivals 2))
               !! 1%nat = Some (Finished (Return good_models)))
    by (vm_compute; reflexivity).
  rewrite Hc. by rewrite <- (Hres 1%nat (Return good_models) Hc).
Defined.

(** ** Requests that differ outside the schema *)


